(** * open_flamingo/train/train_utils.py: a shallow embedding

    The file embeds the four functions of [train_utils.py]
    ([get_cast_dtype], [get_autocast], [train_one_epoch], [get_checkpoint])
    and proves the properties of the label masks, of the pre-loop
    assertions, of the gradient-accumulation flushes and of the checkpoint
    filter.

    Conventions.
    - Python integers and the elements of integer tensors are [Z].
    - A two-dimensional tensor is a list of rows together with its
      [shape1]; torch tensors are rectangular, which is the predicate
      [rectangular].
    - Python exceptions are the constructors of [exn]; a computation that
      may raise returns a [result].
    - The external collaborators of [train_one_epoch] (model, optimizer,
      scheduler, metric sink) are opaque: a call to one of them is recorded
      as an [event] in a trace, in program order. *)

From Stdlib Require Import ZArith Bool.
From stdpp Require Import gmap strings list fin_maps.

Local Open Scope Z_scope.

(** ** Exceptions and results *)

Inductive exn : Type :=
| AssertionError (msg : string)
| IndexError
| ZeroDivisionError
| KeyError (key : string)
| FuelExhausted.   (* not a Python exception: the bound of a modelled
                      [while] loop was reached (shown never to happen) *)

Inductive result (A : Type) : Type :=
| Ok (a : A)
| Raise (e : exn).
Arguments Ok {A} a.
Arguments Raise {A} e.

#[global] Instance result_ret : MRet result := fun A a => Ok a.
#[global] Instance result_bind : MBind result := fun A B f r =>
  match r with
  | Ok a => f a
  | Raise e => Raise e
  end.

(** [mapM] for [result]: runs [f] on the elements from left to right and
    stops at the first exception. *)
Fixpoint result_mapM {A B : Type} (f : A -> result B) (l : list A)
  : result (list B) :=
  match l with
  | [] => Ok []
  | x :: l' =>
      match f x with
      | Raise e => Raise e
      | Ok y =>
          match result_mapM f l' with
          | Raise e => Raise e
          | Ok ys => Ok (y :: ys)
          end
      end
  end.

(** ** Tensors of token ids *)

Definition IGNORE_INDEX : Z := -100.

Record tensor2 : Type := Tensor2 { shape1 : nat; rows : list (list Z) }.

Definition shape0 (t : tensor2) : nat := length (rows t).

Definition rectangular (t : tensor2) : Prop :=
  Forall (fun r : list Z => length r = shape1 t) (rows t).

(** [t[i][j]], [None] out of range. *)
Definition tensor_at (t : tensor2) (i j : nat) : option Z :=
  match rows t !! i with
  | Some r => r !! j
  | None => None
  end.

(** [t.clone()]: tensors are values here, so the clone is the same value
    and later writes to it leave [t] alone. *)
Definition clone (t : tensor2) : tensor2 := t.

(** [labels[labels == v] = -100] *)
Definition fill_where_eq (v : Z) (row : list Z) : list Z :=
  map (fun x : Z => if x =? v then IGNORE_INDEX else x) row.

Definition masked_fill_eq (v : Z) (labels : tensor2) : tensor2 :=
  {| shape1 := shape1 labels; rows := map (fill_where_eq v) (rows labels) |}.

(** [labels[:, 0] = -100]: index 0 of dimension 1 is out of bounds when
    that dimension has size 0. *)
Definition fill_column0 (labels : tensor2) : result tensor2 :=
  if (shape1 labels =? 0)%nat then Raise IndexError
  else Ok {| shape1 := shape1 labels;
             rows := map (fun r : list Z => <[0%nat := IGNORE_INDEX]> r)
                         (rows labels) |}.

(** The inner loop of lines 114-117, on row [i]:
<<
    label_idx = 0
    while label_idx < labels.shape[1] and labels[i][label_idx] != media_token_id:
        labels[i][label_idx] = -100
        label_idx += 1
>>
    The loop state is the row and [label_idx]; both are returned. *)
Fixpoint while_before_media (fuel : nat) (width : nat) (media_token_id : Z)
    (row : list Z) (label_idx : nat) : result (list Z * nat) :=
  match fuel with
  | O => Raise FuelExhausted
  | S fuel' =>
      if (label_idx <? width)%nat then
        match row !! label_idx with
        | None => Raise IndexError
        | Some x =>
            if x =? media_token_id then Ok (row, label_idx)
            else while_before_media fuel' width media_token_id
                   (<[label_idx := IGNORE_INDEX]> row) (S label_idx)
        end
      else Ok (row, label_idx)
  end.

Definition scan_row (width : nat) (media_token_id : Z) (row : list Z)
  : result (list Z * nat) :=
  while_before_media (S width) width media_token_id row 0%nat.

(** The outer loop [for i in range(labels.shape[0])]: iteration [i] reads
    and writes row [i] only. *)
Definition mask_before_first_media (media_token_id : Z) (labels : tensor2)
  : result tensor2 :=
  rs ← result_mapM
         (fun r => '(r', _) ← scan_row (shape1 labels) media_token_id r; Ok r')
         (rows labels);
  Ok {| shape1 := shape1 labels; rows := rs |}.

(** ** Label construction (lines 67-70 and 108-119) *)

(** Source A (LAION):
<<
    labels = input_ids.clone()
    labels[labels == tokenizer.pad_token_id] = -100
    labels[:, 0] = -100
    labels[labels == media_token_id] = -100
>> *)
Definition laion_labels (pad_token_id media_token_id : Z) (input_ids : tensor2)
  : result tensor2 :=
  let labels := clone input_ids in
  let labels := masked_fill_eq pad_token_id labels in
  labels ← fill_column0 labels;
  Ok (masked_fill_eq media_token_id labels).

(** Source B (Pile):
<<
    labels = input_ids.clone()
    labels[labels == tokenizer.pad_token_id] = -100
    labels[:, 0] = -100
    for i in range(labels.shape[0]): ... (the scan above)
    labels[labels == media_token_id] = -100
>> *)
Definition pile_labels (pad_token_id media_token_id : Z) (input_ids : tensor2)
  : result tensor2 :=
  let labels := clone input_ids in
  let labels := masked_fill_eq pad_token_id labels in
  labels ← fill_column0 labels;
  labels ← mask_before_first_media media_token_id labels;
  Ok (masked_fill_eq media_token_id labels).

(** ** Precision helpers (lines 9-25) *)

Inductive dtype : Type := bfloat16 | float16.

Definition get_cast_dtype (precision : string) : option dtype :=
  let cast_dtype := None in
  if String.eqb precision "bf16" then Some bfloat16
  else if String.eqb precision "fp16" then Some float16
  else cast_dtype.

(** What [get_autocast] returns is called with no argument to obtain a
    context manager: [torch.cuda.amp.autocast], the lambda
    [lambda: torch.cuda.amp.autocast(dtype=torch.bfloat16)], or
    [contextlib.suppress]. *)
Inductive context_factory : Type :=
| cuda_amp_autocast
| cuda_amp_autocast_bfloat16
| suppress.

Definition get_autocast (precision : string) : context_factory :=
  if String.eqb precision "amp" then cuda_amp_autocast
  else if String.eqb precision "amp_bfloat16" || String.eqb precision "amp_bf16"
       then cuda_amp_autocast_bfloat16
  else suppress.

(** The context managers, as PyTorch and [contextlib] document them:
    [torch.cuda.amp.autocast()] enables autocast with [float16] unless a
    [dtype] is given and restores the previous setting on exit;
    [suppress()] with no exception class does nothing on entry and lets
    every exception through on exit. The autocast setting is [None] when
    autocast is off and [Some d] when it is on with dtype [d]. *)
Inductive context_manager : Type :=
| Autocast (fast_dtype : dtype)
| SuppressNothing.

Definition call_factory (f : context_factory) : context_manager :=
  match f with
  | cuda_amp_autocast => Autocast float16
  | cuda_amp_autocast_bfloat16 => Autocast bfloat16
  | suppress => SuppressNothing
  end.

Definition ctx_enter (c : context_manager) (setting : option dtype)
  : option dtype :=
  match c with
  | Autocast d => Some d
  | SuppressNothing => setting
  end.

Definition ctx_exit (c : context_manager) (saved setting : option dtype)
  : option dtype :=
  match c with
  | Autocast _ => saved
  | SuppressNothing => setting
  end.

(** ** The epoch driver (lines 28-142) *)

Record Args : Type := {
  precision : string;
  gradient_accumulation_steps : Z;
  rank : Z;
  report_to_wandb : bool
}.

(** [tokenizer.pad_token_id] (the tokenizer has a padding token, so this
    is an integer) and the ids of
    [tokenizer("<image>", add_special_tokens=False)["input_ids"]]. *)
Record Tokenizer : Type := {
  pad_token_id : Z;
  image_input_ids : list Z
}.

(** A source-A batch: [laion_input_ids] is [batch_laion[1][0]] as moved to
    the device on line 62. The images and the attention mask go to the
    model as they are and are not represented. *)
Record laion_batch : Type := { laion_input_ids : tensor2 }.

(** A source-B batch: [pile_input_ids] is the stacked tensor of line 79,
    [torch.stack([x[0] for x in batch_pile[1]]).squeeze(1)]. *)
Record pile_batch : Type := { pile_input_ids : tensor2 }.

(** A loader reports [num_batches] and yields [batches] when iterated. *)
Record Loader (B : Type) : Type := {
  num_batches : Z;
  batches : list B
}.
Arguments num_batches {B} _.
Arguments batches {B} _.

(** Calls to the external collaborators, in program order. *)
Inductive event : Type :=
| LoadMappingMatrix (path : string)      (* lines 42-49 *)
| ModelTrain                             (* model.train() *)
| Forward (ctx : context_manager) (is_vision_encoded : bool)
          (input_ids labels : tensor2)   (* lines 73-75, 122-124 *)
| GetTextFeatures                        (* lines 93-97 *)
| TextToImageTransform                   (* lines 99-101 *)
| Backward                               (* loss.backward() *)
| ClipGradNorm                           (* clip_grad_norm_(.., 1.0) *)
| OptimizerStep
| LrSchedulerStep
| OptimizerZeroGrad
| WandbLog (key : string) (global_step : Z) (commit : bool).

(** The state the driver acts on: what is left of each loader's iterator
    and the trace of calls made so far. *)
Record world : Type := {
  laion_iter : list laion_batch;
  pile_iter : list pile_batch;
  trace : list event
}.

(** Truth value of [mapping_matrix_path]: [None] and the empty string are
    false. *)
Definition truthy (path : option string) : bool :=
  match path with
  | None => false
  | Some s => negb (String.eqb s EmptyString)
  end.

(** [tokenizer("<image>", add_special_tokens=False)["input_ids"][-1]] *)
Definition get_media_token_id (tokenizer : Tokenizer) : result Z :=
  match last (image_input_ids tokenizer) with
  | None => Raise IndexError
  | Some t => Ok t
  end.

(** The flush test of line 133. Python's [%] on integers is [Z.modulo]
    (the sign follows the divisor); a zero divisor is checked by the
    caller. *)
Definition flush_now (g num_steps num_batches_per_epoch : Z) : bool :=
  ((num_steps + 1) mod g =? 0) || (num_steps =? num_batches_per_epoch - 1).

(** One iteration of the loop body (lines 56-142): the outcome and the
    calls made, in order. An exception keeps the calls made before it. *)
Definition train_step (args : Args) (epoch num_batches_per_epoch : Z)
    (tokenizer : Tokenizer) (media_token_id : Z)
    (use_text_to_image_mapping : bool)
    (num_steps : Z) (batch_laion : laion_batch) (batch_pile : pile_batch)
  : result unit * list event :=
  let autocast := get_autocast (precision args) in
  let global_step := num_steps + epoch * num_batches_per_epoch in
  (* LAION forward pass *)
  let input_ids := laion_input_ids batch_laion in
  match laion_labels (pad_token_id tokenizer) media_token_id input_ids with
  | Raise e => (Raise e, [])
  | Ok labels =>
      let ev1 :=
        [Forward (call_factory autocast) false input_ids labels;
         GetTextFeatures]
        ++ (if use_text_to_image_mapping then [TextToImageTransform] else [])
      in
      (* Pile forward pass *)
      let input_ids := pile_input_ids batch_pile in
      match pile_labels (pad_token_id tokenizer) media_token_id input_ids with
      | Raise e => (Raise e, ev1)
      | Ok labels =>
          let ev2 :=
            ev1 ++ [Forward (call_factory autocast) true input_ids labels;
                    Backward; ClipGradNorm] in
          let g := gradient_accumulation_steps args in
          if g =? 0 then (Raise ZeroDivisionError, ev2)
          else if flush_now g num_steps num_batches_per_epoch then
            (Ok tt,
             ev2 ++ [OptimizerStep; LrSchedulerStep; OptimizerZeroGrad]
                 ++ (if (rank args =? 0) && report_to_wandb args
                     then [WandbLog "loss_laion" global_step false;
                           WandbLog "loss_pile" global_step true]
                     else []))
          else (Ok tt, ev2)
      end
  end.

(** [for num_steps, (batch_laion, batch_pile) in
     enumerate(zip(laion_loader, pile_loader))]: [zip] asks the first
    iterator, then the second, and stops as soon as one is exhausted. *)
Fixpoint train_loop (args : Args) (epoch num_batches_per_epoch : Z)
    (tokenizer : Tokenizer) (media_token_id : Z)
    (use_text_to_image_mapping : bool)
    (num_steps : Z) (laion : list laion_batch) (pile : list pile_batch)
    (tr : list event) : result unit * world :=
  match laion with
  | [] => (Ok tt, {| laion_iter := []; pile_iter := pile; trace := tr |})
  | batch_laion :: laion' =>
      match pile with
      | [] => (Ok tt, {| laion_iter := laion'; pile_iter := []; trace := tr |})
      | batch_pile :: pile' =>
          match train_step args epoch num_batches_per_epoch tokenizer
                  media_token_id use_text_to_image_mapping
                  num_steps batch_laion batch_pile with
          | (Raise e, evs) =>
              (Raise e, {| laion_iter := laion'; pile_iter := pile';
                           trace := tr ++ evs |})
          | (Ok _, evs) =>
              train_loop args epoch num_batches_per_epoch tokenizer
                media_token_id use_text_to_image_mapping
                (num_steps + 1) laion' pile' (tr ++ evs)
          end
      end
  end.

Definition train_one_epoch (args : Args) (epoch : Z)
    (laion_loader : Loader laion_batch) (pile_loader : Loader pile_batch)
    (tokenizer : Tokenizer)
    (use_text_to_image_mapping : bool) (mapping_matrix_path : option string)
  : result unit * world :=
  let w0 := {| laion_iter := batches laion_loader;
               pile_iter := batches pile_loader;
               trace := [] |} in
  let num_batches_per_epoch_laion := num_batches laion_loader in
  let num_batches_per_epoch_pile := num_batches pile_loader in
  if negb (num_batches_per_epoch_laion =? num_batches_per_epoch_pile) then
    (Raise (AssertionError
              "Number of batches in laion and pile datasets must be the same"),
     w0)
  else
  let num_batches_per_epoch := num_batches_per_epoch_laion in
  if negb (if use_text_to_image_mapping then truthy mapping_matrix_path
           else true) then
    (Raise (AssertionError
              "mapping_matrix_path must be provided if use_text_to_image_mapping is True"),
     w0)
  else
  let tr :=
    if use_text_to_image_mapping
    then [LoadMappingMatrix (default EmptyString mapping_matrix_path)]
    else [] in
  match get_media_token_id tokenizer with
  | Raise e =>
      (Raise e, {| laion_iter := batches laion_loader;
                   pile_iter := batches pile_loader; trace := tr |})
  | Ok media_token_id =>
      train_loop args epoch num_batches_per_epoch tokenizer media_token_id
        use_text_to_image_mapping 0
        (batches laion_loader) (batches pile_loader) (tr ++ [ModelTrain])
  end.

(** Number of calls in a trace that satisfy [p]. *)
Definition count_calls (p : event -> bool) (tr : list event) : nat :=
  length (filter (fun e => p e = true) tr).

Definition is_optimizer_step (e : event) : bool :=
  match e with OptimizerStep => true | _ => false end.
Definition is_lr_scheduler_step (e : event) : bool :=
  match e with LrSchedulerStep => true | _ => false end.
Definition is_zero_grad (e : event) : bool :=
  match e with OptimizerZeroGrad => true | _ => false end.

Definition is_load_mapping_matrix (e : event) : bool :=
  match e with LoadMappingMatrix _ => true | _ => false end.
Definition is_model_train (e : event) : bool :=
  match e with ModelTrain => true | _ => false end.
Definition is_forward (e : event) : bool :=
  match e with Forward _ _ _ _ => true | _ => false end.
Definition is_get_text_features (e : event) : bool :=
  match e with GetTextFeatures => true | _ => false end.
Definition is_text_to_image_transform (e : event) : bool :=
  match e with TextToImageTransform => true | _ => false end.
Definition is_backward (e : event) : bool :=
  match e with Backward => true | _ => false end.
Definition is_clip_grad_norm (e : event) : bool :=
  match e with ClipGradNorm => true | _ => false end.
Definition is_wandb_log (e : event) : bool :=
  match e with WandbLog _ _ _ => true | _ => false end.

(** The trace with which the loop starts (lines 41-54): the mapping
    weights are loaded when the mapping is requested, then the model is
    put in training mode. *)
Definition setup_trace (use_text_to_image_mapping : bool)
    (mapping_matrix_path : option string) : list event :=
  (if use_text_to_image_mapping
   then [LoadMappingMatrix (default EmptyString mapping_matrix_path)]
   else []) ++ [ModelTrain].

(** The three calls of a flush (lines 134-136). *)
Definition flush_call (p : event -> bool) : Prop :=
  p = is_optimizer_step \/ p = is_lr_scheduler_step \/ p = is_zero_grad.

(** Batches on which the label construction raises nothing: a source-A
    batch has a sequence dimension of positive size; so has a source-B
    batch (whose tensor is rectangular, as every tensor is). *)
Definition laion_batch_ok (b : laion_batch) : Prop :=
  (0 < shape1 (laion_input_ids b))%nat.

Definition pile_batch_ok (b : pile_batch) : Prop :=
  rectangular (pile_input_ids b) /\ (0 < shape1 (pile_input_ids b))%nat.

(** A small epoch for the examples: three batches per loader, flushed
    every two steps. *)
Definition example_args : Args :=
  {| precision := "amp_bf16"; gradient_accumulation_steps := 2;
     rank := 0; report_to_wandb := true |}.

Definition example_tokenizer : Tokenizer :=
  {| pad_token_id := 0; image_input_ids := [9] |}.

Definition example_laion_loader : Loader laion_batch :=
  {| num_batches := 3;
     batches := [ {| laion_input_ids := Tensor2 3 [[5; 9; 7]] |};
                  {| laion_input_ids := Tensor2 3 [[9; 4; 0]] |};
                  {| laion_input_ids := Tensor2 2 [[9; 5]; [6; 0]] |} ] |}.

Definition example_pile_loader : Loader pile_batch :=
  {| num_batches := 3;
     batches := [ {| pile_input_ids := Tensor2 3 [[5; 9; 7]] |};
                  {| pile_input_ids := Tensor2 3 [[9; 4; 9]] |};
                  {| pile_input_ids := Tensor2 2 [[4; 5]; [6; 0]] |} ] |}.

(** ** The checkpoint filter (lines 145-152) *)

Section Checkpoint.
(** The tensors stored in a model are opaque. *)
Context {Tensor : Type}.

Record Param : Type := { requires_grad : bool; data : Tensor }.

(** A model, as far as [get_checkpoint] looks at it: the entries that
    [model.state_dict()] collects (parameters and buffers, by name) and
    the pairs that [model.named_parameters()] yields, in order. *)
Record Model : Type := {
  state_entries : gmap string Tensor;
  named_parameters : list (string * Param)
}.

(** [model.state_dict()] builds a new dictionary at each call. *)
Definition state_dict (model : Model) : gmap string Tensor :=
  state_entries model.

(** The loop of lines 148-150; [del d[k]] raises [KeyError] when [k] is
    not a key of [d]. *)
Fixpoint delete_frozen (params : list (string * Param))
    (state_dict : gmap string Tensor) : result (gmap string Tensor) :=
  match params with
  | [] => Ok state_dict
  | (name, p) :: params' =>
      if negb (requires_grad p) then
        match state_dict !! name with
        | None => Raise (KeyError name)
        | Some _ => delete_frozen params' (delete name state_dict)
        end
      else delete_frozen params' state_dict
  end.

(** The function returns its result and the model as it leaves it. *)
Definition get_checkpoint (model : Model)
  : result (gmap string Tensor) * Model :=
  let state_dict := state_dict model in
  (delete_frozen (named_parameters model) state_dict, model).

(** What PyTorch guarantees of a module: the names of its parameters are
    distinct and each is a key of its state dictionary. *)
Definition module_invariant (model : Model) : Prop :=
  NoDup (named_parameters model).*1 /\
  forall name, name ∈ (named_parameters model).*1 ->
               is_Some (state_entries model !! name).
End Checkpoint.
Arguments Param : clear implicits.
Arguments Model : clear implicits.

(** A media placeholder of the input row that is still there when the
    source-B scan starts: lines 109-110 have not overwritten it, that is,
    it is not at position 0 and the media id is not the padding id. *)
Definition surviving_media (pad media : Z) (row : list Z) (j : nat) : Prop :=
  j <> 0%nat /\ row !! j = Some media /\ media <> pad.

(** Loaders whose second batch has an empty sequence dimension, on the
    source-A side and on the source-B side. *)
Definition example_laion_loader_empty : Loader laion_batch :=
  {| num_batches := 3;
     batches := [ {| laion_input_ids := Tensor2 3 [[5; 9; 7]] |};
                  {| laion_input_ids := Tensor2 0 [[]] |};
                  {| laion_input_ids := Tensor2 2 [[9; 5]; [6; 0]] |} ] |}.

Definition example_pile_loader_empty : Loader pile_batch :=
  {| num_batches := 3;
     batches := [ {| pile_input_ids := Tensor2 3 [[5; 9; 7]] |};
                  {| pile_input_ids := Tensor2 0 [[]] |};
                  {| pile_input_ids := Tensor2 2 [[4; 5]; [6; 0]] |} ] |}.

(** A model with a trainable parameter, a frozen one and a buffer. *)
Definition example_model : Model Z :=
  {| state_entries := <["a" := 1]> (<["b" := 2]> (<["buf" := 3]> ∅));
     named_parameters :=
       [("a"%string, {| requires_grad := true; data := 1 |});
        ("b"%string, {| requires_grad := false; data := 2 |})] |}.

(** * Properties *)

Example pile_labels_ex1 :
  pile_labels 0 9 (Tensor2 6 [[5; 6; 9; 7; 9; 0]; [9; 4; 9; 3; 0; 0]])
  = Ok (Tensor2 6 [[-100; -100; -100; 7; -100; -100];
                   [-100; -100; -100; 3; -100; -100]]).
Proof. reflexivity. Qed.

Example laion_labels_ex1 :
  laion_labels 0 9 (Tensor2 4 [[5; 9; 7; 0]; [9; 4; 0; 0]])
  = Ok (Tensor2 4 [[-100; -100; 7; -100]; [-100; 4; -100; -100]]).
Proof. reflexivity. Qed.

(** ** Precision helpers *)

(** C7: [get_cast_dtype] maps "bf16" to bfloat16, "fp16" to float16 (half
    precision) and every other string to [None], the value that requests
    no cast. *)
Theorem get_cast_dtype_spec :
  get_cast_dtype "bf16" = Some bfloat16 /\
  get_cast_dtype "fp16" = Some float16 /\
  forall precision : string,
    precision <> "bf16"%string -> precision <> "fp16"%string ->
    get_cast_dtype precision = None.
Proof.
  split; [reflexivity | split; [reflexivity |]].
  intros precision Hbf Hfp. unfold get_cast_dtype.
  destruct (String.eqb_spec precision "bf16") as [-> | _]; [done |].
  destruct (String.eqb_spec precision "fp16") as [-> | _]; done.
Qed.

Lemma get_cast_dtype_spec_witness :
  get_cast_dtype "bf16" = Some bfloat16 /\
  get_cast_dtype "fp16" = Some float16 /\
  get_cast_dtype "fp32" = None /\ get_cast_dtype "amp" = None.
Proof.
  destruct get_cast_dtype_spec as (Hb & Hf & Hother).
  split; [exact Hb | split; [exact Hf | split]];
    apply Hother; intros H; discriminate H.
Defined.

(** C8: [get_autocast] returns the mixed-precision context for "amp", the
    mixed-precision context pinned to bfloat16 for "amp_bfloat16" and
    "amp_bf16", and for every other string [suppress], whose context does
    nothing on entry and on exit; the two autocast contexts do switch
    autocast on. *)
Theorem get_autocast_spec :
  get_autocast "amp" = cuda_amp_autocast /\
  get_autocast "amp_bfloat16" = cuda_amp_autocast_bfloat16 /\
  get_autocast "amp_bf16" = cuda_amp_autocast_bfloat16 /\
  (forall setting,
      ctx_enter (call_factory cuda_amp_autocast) setting = Some float16 /\
      ctx_enter (call_factory cuda_amp_autocast_bfloat16) setting
      = Some bfloat16) /\
  forall precision : string,
    precision <> "amp"%string ->
    precision <> "amp_bfloat16"%string ->
    precision <> "amp_bf16"%string ->
    get_autocast precision = suppress /\
    forall saved setting,
      ctx_enter (call_factory (get_autocast precision)) setting = setting /\
      ctx_exit (call_factory (get_autocast precision)) saved setting = setting.
Proof.
  do 3 (split; [reflexivity |]). split; [intros; split; reflexivity |].
  intros precision H1 H2 H3.
  assert (Hs : get_autocast precision = suppress).
  { unfold get_autocast.
    destruct (String.eqb_spec precision "amp") as [-> | _]; [done |].
    destruct (String.eqb_spec precision "amp_bfloat16") as [-> | _]; [done |].
    destruct (String.eqb_spec precision "amp_bf16") as [-> | _]; done. }
  split; [exact Hs |]. intros saved setting. rewrite Hs. split; reflexivity.
Qed.

Lemma get_autocast_spec_witness :
  get_autocast "fp32" = suppress /\
  ctx_enter (call_factory (get_autocast "fp32")) None = None /\
  ctx_exit (call_factory (get_autocast "fp32")) (Some float16) None = None.
Proof.
  destruct get_autocast_spec as (_ & _ & _ & _ & Hother).
  destruct (Hother "fp32"%string) as [Hs Hnoop];
    [intros H; discriminate H .. |].
  split; [exact Hs |]. exact (Hnoop (Some float16) None).
Defined.

(** ** Rows: the three masking steps *)

Lemma fill_where_eq_lookup (v : Z) (row : list Z) (j : nat) :
  fill_where_eq v row !! j
  = (fun x : Z => if x =? v then IGNORE_INDEX else x) <$> row !! j.
Proof. unfold fill_where_eq. apply list_lookup_fmap. Qed.

Lemma fill_where_eq_length (v : Z) (row : list Z) :
  length (fill_where_eq v row) = length row.
Proof. unfold fill_where_eq. apply length_map. Qed.

(** The row as lines 109-110 leave it. *)
Lemma premask_lookup (pad : Z) (row : list Z) (j : nat) (x : Z) :
  row !! j = Some x ->
  <[0%nat := IGNORE_INDEX]> (fill_where_eq pad row) !! j
  = Some (if (j =? 0)%nat || (x =? pad) then IGNORE_INDEX else x).
Proof.
  intros Hx. destruct j as [| j].
  - rewrite list_lookup_insert_eq; [done |].
    rewrite fill_where_eq_length. apply lookup_lt_Some in Hx. lia.
  - rewrite list_lookup_insert_ne by lia.
    rewrite fill_where_eq_lookup, Hx. reflexivity.
Qed.

(** The [while] loop started at [idx] with enough fuel stops at an index
    [stop]: the end of the row or the first [media] from [idx] on; it has
    overwritten exactly the positions [idx .. stop - 1]. *)
Lemma while_before_media_run (width : nat) (media : Z) :
  forall (fuel : nat) (row : list Z) (idx : nat),
    length row = width -> (idx <= width)%nat -> (width - idx < fuel)%nat ->
    exists (row' : list Z) (stop : nat),
      while_before_media fuel width media row idx = Ok (row', stop) /\
      (idx <= stop <= width)%nat /\
      length row' = width /\
      ((stop < width)%nat -> row !! stop = Some media) /\
      (forall j, (idx <= j < stop)%nat -> row !! j <> Some media) /\
      (forall j, row' !! j
                 = if decide (idx <= j < stop)%nat then Some IGNORE_INDEX
                   else row !! j).
Proof.
  induction fuel as [| fuel IH]; intros row idx Hlen Hidx Hfuel; [lia |].
  simpl. destruct (Nat.ltb_spec idx width) as [Hlt | Hge].
  - destruct (lookup_lt_is_Some_2 row idx ltac:(lia)) as [x Hx].
    rewrite Hx. destruct (Z.eqb_spec x media) as [-> | Hne].
    + exists row, idx. split_and!; try done; try lia.
      intros j. case_decide; [lia | done].
    + destruct (IH (<[idx := IGNORE_INDEX]> row) (S idx)) as
        (row' & stop & Hrun & Hstop & Hlen' & Hat & Hbefore & Hrow');
        [by rewrite length_insert | lia | lia |].
      exists row', stop. split_and!; try done; try lia.
      * intros Hs. rewrite <- (Hat Hs). symmetry.
        apply list_lookup_insert_ne. lia.
      * intros j Hj. destruct (decide (j = idx)) as [-> | Hji].
        -- rewrite Hx. congruence.
        -- rewrite <- (list_lookup_insert_ne row idx j IGNORE_INDEX) by lia.
           apply Hbefore. lia.
      * intros j. rewrite Hrow'.
        destruct (decide (j = idx)) as [-> | Hji].
        -- rewrite decide_False by lia. rewrite decide_True by lia.
           apply list_lookup_insert_eq. lia.
        -- rewrite list_lookup_insert_ne by lia.
           repeat case_decide; try done; lia.
  - exists row, idx. split_and!; try done; try lia.
    intros j. case_decide; [lia | done].
Qed.

(** The bound [S width] on the iterations is never reached, whatever the
    row. *)
Lemma while_before_media_fuel (width : nat) (media : Z) :
  forall (fuel : nat) (row : list Z) (idx : nat),
    (width - idx < fuel)%nat ->
    while_before_media fuel width media row idx <> Raise FuelExhausted.
Proof.
  induction fuel as [| fuel IH]; intros row idx Hfuel; [lia |].
  simpl. destruct (Nat.ltb_spec idx width) as [Hlt | Hge]; [| done].
  destruct (row !! idx) as [x |]; [| done].
  destruct (x =? media); [done |]. apply IH. lia.
Qed.

Lemma scan_row_fuel (width : nat) (media : Z) (row : list Z) :
  scan_row width media row <> Raise FuelExhausted.
Proof. apply while_before_media_fuel. lia. Qed.

Lemma scan_row_run (width : nat) (media : Z) (row : list Z) :
  length row = width ->
  exists (row' : list Z) (stop : nat),
    scan_row width media row = Ok (row', stop) /\
    (stop <= width)%nat /\
    length row' = width /\
    ((stop < width)%nat -> row !! stop = Some media) /\
    (forall j, (j < stop)%nat -> row !! j <> Some media) /\
    (forall j, row' !! j
               = if decide (j < stop)%nat then Some IGNORE_INDEX
                 else row !! j).
Proof.
  intros Hlen.
  destruct (while_before_media_run width media (S width) row 0 Hlen)
    as (row' & stop & Hrun & Hstop & Hlen' & Hat & Hbefore & Hrow');
    [lia | lia |].
  exists row', stop. split_and!; try done; try lia.
  - intros j Hj. apply Hbefore. lia.
  - intros j. rewrite Hrow'. repeat case_decide; try done; lia.
Qed.

(** ** From rows to tensors *)

Lemma result_mapM_Ok {A B : Type} (f : A -> result B) (l : list A) :
  (forall x, x ∈ l -> exists y, f x = Ok y) ->
  exists l' : list B,
    result_mapM f l = Ok l' /\
    length l' = length l /\
    forall i x, l !! i = Some x -> exists y, l' !! i = Some y /\ f x = Ok y.
Proof.
  induction l as [| a l IH]; intros Hall.
  - exists []. split_and!; try done.
  - destruct (Hall a) as [b Hb]; [left |].
    destruct IH as (l' & Hl' & Hlen & Hnth).
    { intros x Hx. apply Hall. by right. }
    exists (b :: l'). simpl. rewrite Hb, Hl'. split_and!; try done.
    + simpl. by rewrite Hlen.
    + intros [| i] x Hx; simpl in *.
      * injection Hx as <-. by exists b.
      * by apply Hnth.
Qed.

(** The pair of results of the source-B construction, row by row: row [i]
    of the labels is the scan of the premasked row [i] with its media
    positions filled. *)
Lemma pile_labels_rows (pad media : Z) (input_ids : tensor2) :
  rectangular input_ids -> (0 < shape1 input_ids)%nat ->
  exists labels : tensor2,
    pile_labels pad media input_ids = Ok labels /\
    shape1 labels = shape1 input_ids /\
    shape0 labels = shape0 input_ids /\
    forall i row, rows input_ids !! i = Some row ->
      exists (scanned : list Z) (stop : nat),
        scan_row (shape1 input_ids) media
          (<[0%nat := IGNORE_INDEX]> (fill_where_eq pad row))
        = Ok (scanned, stop) /\
        rows labels !! i = Some (fill_where_eq media scanned).
Proof.
  intros Hrect Hwidth. unfold pile_labels, clone, fill_column0. simpl.
  destruct (Nat.eqb_spec (shape1 input_ids) 0) as [H0 | _]; [lia |].
  unfold mbind, result_bind at 1, mask_before_first_media. simpl.
  set (f := fun r : list Z =>
              '(r', _) ← scan_row (shape1 input_ids) media r; Ok r').
  destruct (result_mapM_Ok f
              (map (fun r : list Z => <[0%nat := IGNORE_INDEX]> r)
                   (map (fill_where_eq pad) (rows input_ids))))
    as (rs & Hrs & Hlen & Hnth).
  { intros r Hr. apply list_elem_of_fmap in Hr as (r1 & -> & Hr1).
    apply list_elem_of_fmap in Hr1 as (r0 & -> & Hr0).
    destruct (scan_row_run (shape1 input_ids) media
                (<[0%nat := IGNORE_INDEX]> (fill_where_eq pad r0)))
      as (row' & stop & Hrun & _).
    { rewrite length_insert, fill_where_eq_length.
      unfold rectangular in Hrect. rewrite Forall_forall in Hrect.
      by apply Hrect. }
    exists row'. unfold f. by rewrite Hrun. }
  unfold mbind, result_bind. rewrite Hrs. simpl.
  eexists. split; [reflexivity |]. simpl. split_and!; try done.
  - unfold shape0. simpl. by rewrite length_map, Hlen, !length_map.
  - intros i row Hrow.
    destruct (Hnth i (<[0%nat := IGNORE_INDEX]> (fill_where_eq pad row)))
      as (y & Hy & Hfy).
    { by rewrite !list_lookup_fmap, Hrow. }
    unfold f in Hfy.
    destruct (scan_row (shape1 input_ids) media
                (<[0%nat := IGNORE_INDEX]> (fill_where_eq pad row)))
      as [[scanned stop] | e] eqn:Hscan; [| discriminate Hfy].
    simpl in Hfy. injection Hfy as ->.
    exists y, stop. split; [done |].
    by rewrite list_lookup_fmap, Hy.
Qed.

Lemma laion_labels_rows (pad media : Z) (input_ids : tensor2) :
  (0 < shape1 input_ids)%nat ->
  laion_labels pad media input_ids
  = Ok {| shape1 := shape1 input_ids;
          rows := map (fun row => fill_where_eq media
                                    (<[0%nat := IGNORE_INDEX]>
                                       (fill_where_eq pad row)))
                      (rows input_ids) |}.
Proof.
  intros Hwidth. unfold laion_labels, clone, fill_column0. simpl.
  destruct (Nat.eqb_spec (shape1 input_ids) 0) as [H0 | _]; [lia |].
  unfold mbind, result_bind, masked_fill_eq. simpl.
  by rewrite !map_map.
Qed.

(** ** Source B, one row *)

Lemma premask_media_iff (pad media : Z) (row : list Z) (j : nat) :
  media <> IGNORE_INDEX ->
  <[0%nat := IGNORE_INDEX]> (fill_where_eq pad row) !! j = Some media
  <-> surviving_media pad media row j.
Proof.
  intros Hmedia. unfold surviving_media.
  destruct (row !! j) as [x |] eqn:Hx.
  - rewrite (premask_lookup pad row j x Hx).
    destruct j as [| j]; simpl.
    + split; [intros [= H]; congruence | intros (H & _); done].
    + destruct (Z.eqb_spec x pad) as [-> | Hpad].
      * split; [intros [= H]; congruence | intros (_ & [= ->] & H); done].
      * split; [intros [= ->]; done | intros (_ & [= ->] & _); done].
  - split; [| intros (_ & H & _); discriminate H].
    intros H. apply lookup_lt_Some in H.
    rewrite length_insert, fill_where_eq_length in H.
    apply lookup_ge_None in Hx. lia.
Qed.

(** Row [i] of the source-B labels in closed form, from where the scan
    stopped. *)
Lemma pile_row_final (pad media : Z) (width : nat) (row scanned : list Z)
    (stop : nat) :
  length row = width ->
  scan_row width media (<[0%nat := IGNORE_INDEX]> (fill_where_eq pad row))
  = Ok (scanned, stop) ->
  (stop <= width)%nat /\
  (forall j, (j < stop)%nat ->
     <[0%nat := IGNORE_INDEX]> (fill_where_eq pad row) !! j <> Some media) /\
  ((stop < width)%nat ->
     <[0%nat := IGNORE_INDEX]> (fill_where_eq pad row) !! stop = Some media) /\
  forall j x, row !! j = Some x ->
    fill_where_eq media scanned !! j
    = Some (if decide (j < stop)%nat then IGNORE_INDEX
            else let y := if (j =? 0)%nat || (x =? pad)
                          then IGNORE_INDEX else x in
                 if y =? media then IGNORE_INDEX else y).
Proof.
  intros Hlen Hscan.
  destruct (scan_row_run width media
              (<[0%nat := IGNORE_INDEX]> (fill_where_eq pad row)))
    as (row' & stop' & Hrun & Hstop & _ & Hat & Hbefore & Hrow').
  { by rewrite length_insert, fill_where_eq_length. }
  rewrite Hrun in Hscan. injection Hscan as -> ->.
  split_and!; try done.
  intros j x Hx. rewrite fill_where_eq_lookup, Hrow'.
  case_decide as Hj.
  - change (Some (if IGNORE_INDEX =? media then IGNORE_INDEX
                  else IGNORE_INDEX) = Some IGNORE_INDEX).
    by destruct (IGNORE_INDEX =? media).
  - by rewrite (premask_lookup pad row j x Hx).
Qed.

Lemma tensor_at_row (t : tensor2) (i j : nat) (r : list Z) :
  rows t !! i = Some r -> tensor_at t i j = r !! j.
Proof. intros H. unfold tensor_at. by rewrite H. Qed.

Lemma rectangular_row (t : tensor2) (i : nat) (r : list Z) :
  rectangular t -> rows t !! i = Some r -> length r = shape1 t.
Proof.
  unfold rectangular. rewrite Forall_forall. intros Hrect Hr.
  apply Hrect. eapply list_elem_of_lookup_2, Hr.
Qed.

(** ** Source A labels *)

(** The value of each label of a source-A batch. *)
Lemma laion_labels_at (pad media : Z) (input_ids : tensor2) :
  (0 < shape1 input_ids)%nat ->
  exists labels : tensor2,
    laion_labels pad media input_ids = Ok labels /\
    shape0 labels = shape0 input_ids /\
    shape1 labels = shape1 input_ids /\
    forall i j x, tensor_at input_ids i j = Some x ->
      tensor_at labels i j
      = Some (if (x =? pad) || (j =? 0)%nat || (x =? media)
              then IGNORE_INDEX else x).
Proof.
  intros Hwidth. rewrite (laion_labels_rows pad media input_ids Hwidth).
  eexists. split; [reflexivity |]. split_and!.
  - unfold shape0. simpl. by rewrite length_map.
  - done.
  - intros i j x Hx. unfold tensor_at in *. simpl.
    rewrite list_lookup_fmap.
    destruct (rows input_ids !! i) as [row |] eqn:Hrow; [| done]. simpl.
    rewrite fill_where_eq_lookup, (premask_lookup pad row j x Hx). simpl.
    f_equal.
    destruct (Nat.eqb_spec j 0), (Z.eqb_spec x pad); cbn [orb];
      by destruct (IGNORE_INDEX =? media).
Qed.

(** C4: for a source-A batch the labels are the input ids where a position
    holds the ignore sentinel exactly when its token is the padding token,
    or it is position 0, or its token is the media placeholder; every other
    position keeps its token id. (The second part reads "exactly when" on
    the label values, for tokens that are not -100 themselves.) *)
Theorem laion_labels_mask (pad media : Z) (input_ids : tensor2) :
  (0 < shape1 input_ids)%nat ->
  exists labels : tensor2,
    laion_labels pad media input_ids = Ok labels /\
    shape0 labels = shape0 input_ids /\
    shape1 labels = shape1 input_ids /\
    forall i j x, tensor_at input_ids i j = Some x ->
      tensor_at labels i j
      = Some (if (x =? pad) || (j =? 0)%nat || (x =? media)
              then IGNORE_INDEX else x) /\
      (x <> IGNORE_INDEX ->
       (tensor_at labels i j = Some IGNORE_INDEX
        <-> x = pad \/ j = 0%nat \/ x = media)).
Proof.
  intros Hwidth.
  destruct (laion_labels_at pad media input_ids Hwidth)
    as (labels & Hrun & Hs0 & Hs1 & Hat).
  exists labels. split_and!; try done.
  intros i j x Hx. rewrite (Hat i j x Hx). split; [done |]. intros Hx100.
  destruct (Z.eqb_spec x pad), (Nat.eqb_spec j 0), (Z.eqb_spec x media);
    cbn [orb]; split; intros H; auto; try (injection H as H; done);
    destruct H as [H | [H | H]]; done.
Qed.

Lemma laion_labels_mask_witness :
  exists labels : tensor2,
    laion_labels 0 9 (Tensor2 4 [[5; 9; 7; 0]; [9; 4; 0; 0]]) = Ok labels /\
    tensor_at labels 0 1 = Some IGNORE_INDEX /\
    tensor_at labels 0 2 = Some 7 /\
    tensor_at labels 1 1 = Some 4.
Proof.
  destruct (laion_labels_mask 0 9 (Tensor2 4 [[5; 9; 7; 0]; [9; 4; 0; 0]]))
    as (labels & Hrun & _ & _ & Hat); [simpl; lia |].
  exists labels. split; [exact Hrun |].
  split; [exact (proj1 (Hat 0%nat 1%nat 9 eq_refl)) |].
  split; [exact (proj1 (Hat 0%nat 2%nat 7 eq_refl)) |].
  exact (proj1 (Hat 1%nat 1%nat 4 eq_refl)).
Defined.

(** ** Source B labels *)

(** C1: for a source-B batch, in every sequence each position strictly
    before the first media placeholder holds the ignore sentinel, each
    media-placeholder position holds it too, and a sequence without a media
    placeholder holds it everywhere. Token ids are vocabulary indices, so
    the media id is not -100. *)
Theorem pile_labels_mask (pad media : Z) (input_ids : tensor2) :
  rectangular input_ids -> (0 < shape1 input_ids)%nat ->
  media <> IGNORE_INDEX ->
  exists labels : tensor2,
    pile_labels pad media input_ids = Ok labels /\
    shape0 labels = shape0 input_ids /\
    shape1 labels = shape1 input_ids /\
    forall i row, rows input_ids !! i = Some row ->
      (forall p, row !! p = Some media ->
                 (forall j, (j < p)%nat -> row !! j <> Some media) ->
                 forall j, (j < p)%nat ->
                           tensor_at labels i j = Some IGNORE_INDEX) /\
      (forall p, row !! p = Some media ->
                 tensor_at labels i p = Some IGNORE_INDEX) /\
      ((forall p, row !! p <> Some media) ->
       forall j, (j < shape1 input_ids)%nat ->
                 tensor_at labels i j = Some IGNORE_INDEX).
Proof.
  intros Hrect Hwidth Hmedia.
  destruct (pile_labels_rows pad media input_ids Hrect Hwidth)
    as (labels & Hrun & Hs1 & Hs0 & Hrows).
  exists labels. split_and!; try done.
  intros i row Hrow.
  destruct (Hrows i row Hrow) as (scanned & stop & Hscan & Hlrow).
  pose proof (rectangular_row _ _ _ Hrect Hrow) as Hlen.
  destruct (pile_row_final pad media _ row scanned stop Hlen Hscan)
    as (Hstop & Hbefore & Hat & Hfinal).
  assert (Hnext : (stop < shape1 input_ids)%nat -> row !! stop = Some media).
  { intros Hlt. apply Hat, premask_media_iff in Hlt as (_ & H & _); done. }
  split_and!.
  - intros p Hp Hfirst j Hj.
    destruct (lookup_lt_is_Some_2 row j) as [x Hx].
    { apply lookup_lt_Some in Hp. lia. }
    rewrite (tensor_at_row _ _ _ _ Hlrow), (Hfinal j x Hx).
    case_decide as Hjs; [done |].
    exfalso. apply (Hfirst stop); [lia |]. apply Hnext.
    apply lookup_lt_Some in Hp. lia.
  - intros p Hp.
    rewrite (tensor_at_row _ _ _ _ Hlrow), (Hfinal p media Hp).
    case_decide; [done |]. cbn zeta.
    destruct ((p =? 0)%nat || (media =? pad)).
    + by destruct (IGNORE_INDEX =? media).
    + by rewrite Z.eqb_refl.
  - intros Hnone j Hj.
    destruct (lookup_lt_is_Some_2 row j) as [x Hx]; [lia |].
    rewrite (tensor_at_row _ _ _ _ Hlrow), (Hfinal j x Hx).
    case_decide as Hjs; [done |].
    exfalso. apply (Hnone stop), Hnext. lia.
Qed.

Lemma pile_labels_mask_witness :
  exists labels : tensor2,
    pile_labels 0 9 (Tensor2 6 [[5; 6; 9; 7; 9; 0]; [4; 4; 3; 3; 0; 0]])
    = Ok labels /\
    tensor_at labels 0 1 = Some IGNORE_INDEX /\
    tensor_at labels 0 4 = Some IGNORE_INDEX /\
    tensor_at labels 1 3 = Some IGNORE_INDEX.
Proof.
  destruct (pile_labels_mask 0 9
              (Tensor2 6 [[5; 6; 9; 7; 9; 0]; [4; 4; 3; 3; 0; 0]]))
    as (labels & Hrun & _ & _ & Hat).
  - repeat constructor.
  - simpl. lia.
  - discriminate.
  - exists labels. split; [exact Hrun |].
    destruct (Hat 0%nat [5; 6; 9; 7; 9; 0] eq_refl) as (Hbefore & Hmedia & _).
    destruct (Hat 1%nat [4; 4; 3; 3; 0; 0] eq_refl) as (_ & _ & Hnone).
    split_and!.
    + apply (Hbefore 2%nat eq_refl); [| lia].
      intros [| [| j]] Hj; [discriminate | discriminate | lia].
    + apply (Hmedia 4%nat eq_refl).
    + apply Hnone; [| simpl; lia].
      intros [| [| [| [| [| [| p]]]]]]; discriminate.
Defined.

(** C5: in the labels of either source, position 0 of every sequence holds
    the ignore sentinel. *)
Theorem labels_position0_ignored (pad media : Z) (input_ids : tensor2) :
  rectangular input_ids -> (0 < shape1 input_ids)%nat ->
  (exists labels : tensor2,
      laion_labels pad media input_ids = Ok labels /\
      shape0 labels = shape0 input_ids /\
      forall i, (i < shape0 input_ids)%nat ->
                tensor_at labels i 0 = Some IGNORE_INDEX) /\
  (exists labels : tensor2,
      pile_labels pad media input_ids = Ok labels /\
      shape0 labels = shape0 input_ids /\
      forall i, (i < shape0 input_ids)%nat ->
                tensor_at labels i 0 = Some IGNORE_INDEX).
Proof.
  intros Hrect Hwidth. split.
  - destruct (laion_labels_at pad media input_ids Hwidth)
      as (labels & Hrun & Hs0 & _ & Hat).
    exists labels. split_and!; try done.
    intros i Hi. destruct (lookup_lt_is_Some_2 (rows input_ids) i Hi)
      as [row Hrow].
    pose proof (rectangular_row _ _ _ Hrect Hrow) as Hlen.
    destruct (lookup_lt_is_Some_2 row 0) as [x Hx]; [lia |].
    rewrite (Hat i 0%nat x) by (by rewrite (tensor_at_row _ _ _ _ Hrow)).
    by rewrite orb_true_r.
  - destruct (pile_labels_rows pad media input_ids Hrect Hwidth)
      as (labels & Hrun & _ & Hs0 & Hrows).
    exists labels. split_and!; try done.
    intros i Hi. destruct (lookup_lt_is_Some_2 (rows input_ids) i Hi)
      as [row Hrow].
    pose proof (rectangular_row _ _ _ Hrect Hrow) as Hlen.
    destruct (Hrows i row Hrow) as (scanned & stop & Hscan & Hlrow).
    destruct (pile_row_final pad media _ row scanned stop Hlen Hscan)
      as (_ & _ & _ & Hfinal).
    destruct (lookup_lt_is_Some_2 row 0) as [x Hx]; [lia |].
    rewrite (tensor_at_row _ _ _ _ Hlrow), (Hfinal 0%nat x Hx).
    case_decide; [done |]. cbn [Nat.eqb orb].
    by destruct (IGNORE_INDEX =? media).
Qed.

Lemma labels_position0_ignored_witness :
  (exists labels : tensor2,
      laion_labels 0 9 (Tensor2 3 [[9; 5; 0]; [5; 9; 7]]) = Ok labels /\
      tensor_at labels 0 0 = Some IGNORE_INDEX /\
      tensor_at labels 1 0 = Some IGNORE_INDEX) /\
  (exists labels : tensor2,
      pile_labels 0 9 (Tensor2 3 [[9; 5; 0]; [5; 9; 7]]) = Ok labels /\
      tensor_at labels 0 0 = Some IGNORE_INDEX /\
      tensor_at labels 1 0 = Some IGNORE_INDEX).
Proof.
  destruct (labels_position0_ignored 0 9 (Tensor2 3 [[9; 5; 0]; [5; 9; 7]]))
    as [(la & Hla & _ & Ha) (lb & Hlb & _ & Hb)].
  - repeat constructor.
  - simpl. lia.
  - split; [exists la | exists lb]; (split; [assumption |]);
      split; (apply Ha || apply Hb); unfold shape0; simpl; lia.
Defined.

(** The media id must not be the sentinel for the source-B mask to reach
    the first media placeholder: with -100 as media id the scan stops at
    once, on the sentinel that line 110 wrote at position 0. *)
Remark pile_labels_media_is_sentinel :
  pile_labels 0 (-100) (Tensor2 4 [[5; 6; -100; 7]])
  = Ok (Tensor2 4 [[-100; 6; -100; 7]]).
Proof. reflexivity. Qed.

(** C9: in a source-B sequence whose first media placeholder is at
    position 0, or when the media id is the padding id, the scan does not
    stop at that placeholder, which lines 109-110 have overwritten: it
    stops at the next surviving placeholder, or at the end of the sequence
    when none survives, and every position before its stop holds the
    ignore sentinel. *)
Theorem pile_scan_passes_overwritten_media (pad media : Z)
    (input_ids : tensor2) :
  rectangular input_ids -> (0 < shape1 input_ids)%nat ->
  media <> IGNORE_INDEX ->
  exists labels : tensor2,
    pile_labels pad media input_ids = Ok labels /\
    forall i row, rows input_ids !! i = Some row ->
      row !! 0%nat = Some media \/ media = pad ->
      exists (scanned : list Z) (stop : nat),
        scan_row (shape1 input_ids) media
          (<[0%nat := IGNORE_INDEX]> (fill_where_eq pad row))
        = Ok (scanned, stop) /\
        rows labels !! i = Some (fill_where_eq media scanned) /\
        (forall p, row !! p = Some media ->
                   (forall j, (j < p)%nat -> row !! j <> Some media) ->
                   (p < stop)%nat) /\
        (stop <= shape1 input_ids)%nat /\
        (forall j, (j < stop)%nat -> ~ surviving_media pad media row j) /\
        ((stop < shape1 input_ids)%nat -> surviving_media pad media row stop) /\
        (forall j, (j < stop)%nat ->
                   tensor_at labels i j = Some IGNORE_INDEX) /\
        ((forall j, ~ surviving_media pad media row j) ->
         forall j, (j < shape1 input_ids)%nat ->
                   tensor_at labels i j = Some IGNORE_INDEX).
Proof.
  intros Hrect Hwidth Hmedia.
  destruct (pile_labels_rows pad media input_ids Hrect Hwidth)
    as (labels & Hrun & Hs1 & Hs0 & Hrows).
  exists labels. split; [done |].
  intros i row Hrow Hcase.
  destruct (Hrows i row Hrow) as (scanned & stop & Hscan & Hlrow).
  pose proof (rectangular_row _ _ _ Hrect Hrow) as Hlen.
  destruct (pile_row_final pad media _ row scanned stop Hlen Hscan)
    as (Hstop & Hbefore & Hat & Hfinal).
  assert (Hnext : (stop < shape1 input_ids)%nat ->
                  surviving_media pad media row stop).
  { intros Hlt. by apply premask_media_iff, Hat. }
  assert (Hmasked : forall j, (j < stop)%nat ->
                              tensor_at labels i j = Some IGNORE_INDEX).
  { intros j Hj. destruct (lookup_lt_is_Some_2 row j) as [x Hx]; [lia |].
    rewrite (tensor_at_row _ _ _ _ Hlrow), (Hfinal j x Hx).
    by rewrite decide_True. }
  exists scanned, stop. split_and!; try done.
  - intros p Hp Hfirst.
    destruct (decide (p < stop)%nat) as [| Hge]; [done | exfalso].
    assert (Hlt : (stop < shape1 input_ids)%nat).
    { apply lookup_lt_Some in Hp. lia. }
    destruct (Hnext Hlt) as (Hne0 & Hstopmedia & Hnepad).
    destruct Hcase as [H0 | Heq]; [| done].
    destruct (decide (p = 0%nat)) as [-> | Hp0]; [lia |].
    apply (Hfirst 0%nat); [lia | done].
  - intros j Hj Hsurv. by apply (Hbefore j Hj), premask_media_iff.
  - intros Hnone j Hj. apply Hmasked.
    destruct (decide (stop < shape1 input_ids)%nat) as [Hlt | Hge]; [| lia].
    exfalso. apply (Hnone stop), Hnext, Hlt.
Qed.

Lemma pile_scan_passes_overwritten_media_witness :
  exists labels : tensor2,
    pile_labels 0 9 (Tensor2 6 [[9; 4; 9; 3; 0; 0]; [9; 4; 3; 3; 0; 0]])
    = Ok labels /\
    tensor_at labels 0 1 = Some IGNORE_INDEX /\
    tensor_at labels 1 3 = Some IGNORE_INDEX.
Proof.
  destruct (pile_scan_passes_overwritten_media 0 9
              (Tensor2 6 [[9; 4; 9; 3; 0; 0]; [9; 4; 3; 3; 0; 0]]))
    as (labels & Hrun & Hat).
  - repeat constructor.
  - simpl. lia.
  - discriminate.
  - exists labels. split; [exact Hrun |].
    destruct (Hat 0%nat [9; 4; 9; 3; 0; 0] eq_refl (or_introl eq_refl))
      as (s0 & stop0 & _ & _ & Hpast0 & _ & _ & Hnext0 & Hmask0 & _).
    destruct (Hat 1%nat [9; 4; 3; 3; 0; 0] eq_refl (or_introl eq_refl))
      as (s1 & stop1 & _ & _ & _ & _ & _ & _ & _ & Hall1).
    split.
    + apply Hmask0.
      assert (H0 : (0 < stop0)%nat).
      { apply (Hpast0 0%nat eq_refl). intros j Hj. lia. }
      destruct (decide (stop0 < 6)%nat) as [Hlt | Hge]; [| lia].
      destruct (Hnext0 Hlt) as (_ & Hnine & _).
      destruct stop0 as [| [| stop0]]; [lia | discriminate Hnine | lia].
    + apply Hall1; [| simpl; lia].
      intros j (Hj0 & Hj & _).
      destruct j as [| [| [| [| [| [| j]]]]]]; try discriminate Hj. done.
Defined.

Example pile_scan_ex_media_at_0 :
  scan_row 6 9 (<[0%nat := IGNORE_INDEX]> (fill_where_eq 0 [9; 4; 9; 3; 0; 0]))
  = Ok ([-100; -100; 9; 3; -100; -100], 2%nat).
Proof. reflexivity. Qed.

Example pile_labels_ex_media_is_pad :
  pile_labels 9 9 (Tensor2 4 [[5; 9; 7; 9]]) = Ok (Tensor2 4 [[-100; -100; -100; -100]]).
Proof. reflexivity. Qed.

(** ** The epoch driver: assertions *)

(** C2: when the two loaders report different batch counts, and when the
    text-to-image mapping is requested without a path to its weights,
    [train_one_epoch] raises an assertion failure with both loaders still
    whole and no call made to the model, the optimizer or the scheduler. *)
Theorem train_one_epoch_asserts_first (args : Args) (epoch : Z)
    (laion_loader : Loader laion_batch) (pile_loader : Loader pile_batch)
    (tokenizer : Tokenizer) (use_text_to_image_mapping : bool)
    (mapping_matrix_path : option string) :
  num_batches laion_loader <> num_batches pile_loader \/
  (use_text_to_image_mapping = true /\
   (mapping_matrix_path = None \/ mapping_matrix_path = Some EmptyString)) ->
  exists msg : string,
    train_one_epoch args epoch laion_loader pile_loader tokenizer
      use_text_to_image_mapping mapping_matrix_path
    = (Raise (AssertionError msg),
       {| laion_iter := batches laion_loader;
          pile_iter := batches pile_loader;
          trace := [] |}).
Proof.
  intros Hbad. unfold train_one_epoch.
  destruct (Z.eqb_spec (num_batches laion_loader) (num_batches pile_loader))
    as [Heq | Hne]; simpl.
  - destruct Hbad as [Hne | (-> & Hpath)]; [done |].
    assert (Hfalse : truthy mapping_matrix_path = false)
      by (destruct Hpath as [-> | ->]; reflexivity).
    rewrite Hfalse. simpl. by eexists.
  - by eexists.
Qed.

Lemma train_one_epoch_asserts_first_witness :
  (exists msg : string,
      train_one_epoch
        {| precision := "amp_bf16"; gradient_accumulation_steps := 2;
           rank := 0; report_to_wandb := true |}
        3
        {| num_batches := 2;
           batches := [ {| laion_input_ids := Tensor2 2 [[5; 9]] |} ] |}
        {| num_batches := 1;
           batches := [ {| pile_input_ids := Tensor2 2 [[9; 5]] |} ] |}
        {| pad_token_id := 0; image_input_ids := [9] |}
        false None
      = (Raise (AssertionError msg),
         {| laion_iter := [ {| laion_input_ids := Tensor2 2 [[5; 9]] |} ];
            pile_iter := [ {| pile_input_ids := Tensor2 2 [[9; 5]] |} ];
            trace := [] |})) /\
  (exists msg : string,
      train_one_epoch
        {| precision := "amp_bf16"; gradient_accumulation_steps := 2;
           rank := 0; report_to_wandb := true |}
        3
        {| num_batches := 1;
           batches := [ {| laion_input_ids := Tensor2 2 [[5; 9]] |} ] |}
        {| num_batches := 1;
           batches := [ {| pile_input_ids := Tensor2 2 [[9; 5]] |} ] |}
        {| pad_token_id := 0; image_input_ids := [9] |}
        true None
      = (Raise (AssertionError msg),
         {| laion_iter := [ {| laion_input_ids := Tensor2 2 [[5; 9]] |} ];
            pile_iter := [ {| pile_input_ids := Tensor2 2 [[9; 5]] |} ];
            trace := [] |})).
Proof.
  split.
  - apply (train_one_epoch_asserts_first _ 3
             {| num_batches := 2;
                batches := [ {| laion_input_ids := Tensor2 2 [[5; 9]] |} ] |}
             {| num_batches := 1;
                batches := [ {| pile_input_ids := Tensor2 2 [[9; 5]] |} ] |}).
    left. simpl. lia.
  - apply (train_one_epoch_asserts_first _ 3
             {| num_batches := 1;
                batches := [ {| laion_input_ids := Tensor2 2 [[5; 9]] |} ] |}
             {| num_batches := 1;
                batches := [ {| pile_input_ids := Tensor2 2 [[9; 5]] |} ] |}).
    right. split; [reflexivity | left; reflexivity].
Defined.

(** ** The epoch driver: gradient accumulation *)

Lemma count_calls_app (p : event -> bool) (tr1 tr2 : list event) :
  count_calls p (tr1 ++ tr2) = (count_calls p tr1 + count_calls p tr2)%nat.
Proof. unfold count_calls. by rewrite filter_app, length_app. Qed.

(** An iteration that completes makes one call of each flush operation
    when the test of line 133 holds, and none otherwise. *)
Lemma train_step_flush (p : event -> bool) (args : Args)
    (epoch n : Z) (tokenizer : Tokenizer) (media : Z) (use_mapping : bool)
    (num_steps : Z) (bl : laion_batch) (bp : pile_batch)
    (u : unit) (evs : list event) :
  flush_call p ->
  train_step args epoch n tokenizer media use_mapping num_steps bl bp
  = (Ok u, evs) ->
  count_calls p evs
  = if flush_now (gradient_accumulation_steps args) num_steps n
    then 1%nat else 0%nat.
Proof.
  intros Hp. unfold train_step.
  destruct (laion_labels _ _ _) as [la |]; [| discriminate].
  destruct (pile_labels _ _ _) as [lb |]; [| discriminate].
  destruct (gradient_accumulation_steps args =? 0); [discriminate |].
  destruct (flush_now _ _ _); intros [= <- <-];
    destruct use_mapping, ((rank args =? 0) && report_to_wandb args);
    destruct Hp as [-> | [-> | ->]]; reflexivity.
Qed.

Lemma div_succ (g s : Z) :
  0 < g -> 0 <= s ->
  (s + 1) / g - s / g = if (s + 1) mod g =? 0 then 1 else 0.
Proof.
  intros Hg Hs.
  destruct (Z.eqb_spec ((s + 1) mod g) 0) as [H0 | Hn0].
  - pose proof (Z.div_mod (s + 1) g ltac:(lia)) as H1.
    pose proof (Z.mod_pos_bound s g Hg) as Hb.
    pose proof (Z.div_mod s g ltac:(lia)) as H2.
    rewrite H0 in H1. nia.
  - pose proof (Z.div_mod (s + 1) g ltac:(lia)) as H1.
    pose proof (Z.mod_pos_bound (s + 1) g Hg) as Hb1.
    pose proof (Z.mod_pos_bound s g Hg) as Hb.
    pose proof (Z.div_mod s g ltac:(lia)) as H2.
    nia.
Qed.

(** The loop from step [s] on, over the [n - s] batches that are left. *)
Lemma train_loop_flush_count (p : event -> bool) (args : Args)
    (epoch n : Z) (tokenizer : Tokenizer) (media : Z) (use_mapping : bool) :
  flush_call p ->
  0 < gradient_accumulation_steps args ->
  forall (laion : list laion_batch) (pile : list pile_batch) (s : Z)
         (tr : list event) (w : world),
    length laion = length pile -> 0 <= s ->
    s + Z.of_nat (length laion) = n ->
    train_loop args epoch n tokenizer media use_mapping s laion pile tr
    = (Ok tt, w) ->
    Z.of_nat (count_calls p (trace w))
    = Z.of_nat (count_calls p tr)
      + match laion with
        | [] => 0
        | _ :: _ => (n - 1) / gradient_accumulation_steps args + 1
                    - s / gradient_accumulation_steps args
        end.
Proof.
  intros Hp Hg. set (g := gradient_accumulation_steps args) in *.
  induction laion as [| bl laion IH]; intros pile s tr w Hlen Hs Hn Hrun.
  - simpl in Hrun. injection Hrun as <-. simpl. lia.
  - destruct pile as [| bp pile]; [discriminate Hlen |].
    simpl in Hrun.
    destruct (train_step args epoch n tokenizer media use_mapping s bl bp)
      as [[u |e] evs] eqn:Hstep; [| discriminate Hrun].
    pose proof (train_step_flush p _ _ _ _ _ _ _ _ _ _ _ Hp Hstep) as Hevs.
    fold g in Hevs.
    apply IH in Hrun; [| simpl in Hlen; lia | lia | simpl in Hn; lia].
    rewrite Hrun, count_calls_app, Hevs. unfold flush_now.
    pose proof (div_succ g s Hg Hs) as Hdiv.
    destruct laion as [| bl' laion].
    + simpl in Hn. replace (s =? n - 1) with true
        by (symmetry; apply Z.eqb_eq; lia).
      rewrite orb_true_r. replace (n - 1) with s by lia. lia.
    + replace (s =? n - 1) with false
        by (symmetry; apply Z.eqb_neq; simpl in Hn; lia).
      rewrite orb_false_r.
      destruct ((s + 1) mod g =? 0); lia.
Qed.

(** C3: an epoch that runs its [num_batches] batches to the end, with a
    positive [gradient_accumulation_steps], calls [optimizer.step],
    [lr_scheduler.step] and [optimizer.zero_grad] exactly
    ceil(num_batches / gradient_accumulation_steps) times each. The
    quotient [(n + g - 1) / g] is that ceiling: it is the integer [c] with
    [g * (c - 1) < n <= g * c]. *)
Theorem train_one_epoch_flush_count (args : Args) (epoch : Z)
    (laion_loader : Loader laion_batch) (pile_loader : Loader pile_batch)
    (tokenizer : Tokenizer) (use_text_to_image_mapping : bool)
    (mapping_matrix_path : option string) (w : world) :
  0 < gradient_accumulation_steps args ->
  Z.of_nat (length (batches laion_loader)) = num_batches laion_loader ->
  Z.of_nat (length (batches pile_loader)) = num_batches pile_loader ->
  train_one_epoch args epoch laion_loader pile_loader tokenizer
    use_text_to_image_mapping mapping_matrix_path = (Ok tt, w) ->
  let g := gradient_accumulation_steps args in
  let n := num_batches laion_loader in
  let c := (n + g - 1) / g in
  g * (c - 1) < n <= g * c /\
  Z.of_nat (count_calls is_optimizer_step (trace w)) = c /\
  Z.of_nat (count_calls is_lr_scheduler_step (trace w)) = c /\
  Z.of_nat (count_calls is_zero_grad (trace w)) = c.
Proof.
  intros Hg Hlaion Hpile Hrun g n c.
  assert (Hceil : g * (c - 1) < n <= g * c).
  { subst c. fold g in Hg.
    pose proof (Z.div_mod (n + g - 1) g ltac:(lia)) as H1.
    pose proof (Z.mod_pos_bound (n + g - 1) g Hg) as Hb. nia. }
  split; [exact Hceil |].
  unfold train_one_epoch in Hrun.
  destruct (Z.eqb_spec (num_batches laion_loader) (num_batches pile_loader))
    as [Heq | Hne]; [| discriminate Hrun].
  cbn [negb] in Hrun.
  destruct (negb _); [discriminate Hrun |].
  destruct (get_media_token_id tokenizer) as [media | e];
    [| discriminate Hrun].
  assert (Hcount : forall p, flush_call p ->
                             Z.of_nat (count_calls p (trace w)) = c).
  { intros p Hp.
    assert (Hlen : length (batches laion_loader)
                   = length (batches pile_loader)) by lia.
    assert (Hsum : 0 + Z.of_nat (length (batches laion_loader)) = n)
      by (subst n; lia).
    rewrite (train_loop_flush_count p args epoch n tokenizer media
               use_text_to_image_mapping Hp Hg
               (batches laion_loader) (batches pile_loader) 0 _ w
               Hlen (Z.le_refl 0) Hsum Hrun).
    assert (H0 : count_calls p
                   ((if use_text_to_image_mapping
                     then [LoadMappingMatrix
                             (default EmptyString mapping_matrix_path)]
                     else []) ++ [ModelTrain]) = 0%nat).
    { destruct use_text_to_image_mapping, Hp as [-> | [-> | ->]];
        reflexivity. }
    rewrite H0. fold g. rewrite Z.div_0_l by lia.
    destruct (batches laion_loader) as [| bl rest] eqn:Hb.
    - simpl in Hlaion. subst c. fold n in Hlaion. rewrite <- Hlaion.
      rewrite Z.div_small; lia.
    - subst c. replace (n + g - 1) with (n - 1 + 1 * g) by lia.
      rewrite Z.div_add by lia. lia. }
  split_and!; apply Hcount; unfold flush_call; auto.
Qed.

Lemma train_one_epoch_flush_count_witness :
  Z.of_nat (count_calls is_optimizer_step
              (trace (snd (train_one_epoch example_args 1
                             example_laion_loader example_pile_loader
                             example_tokenizer false None)))) = 2 /\
  Z.of_nat (count_calls is_lr_scheduler_step
              (trace (snd (train_one_epoch example_args 1
                             example_laion_loader example_pile_loader
                             example_tokenizer false None)))) = 2 /\
  Z.of_nat (count_calls is_zero_grad
              (trace (snd (train_one_epoch example_args 1
                             example_laion_loader example_pile_loader
                             example_tokenizer false None)))) = 2.
Proof.
  refine (proj2 (train_one_epoch_flush_count example_args 1
                   example_laion_loader example_pile_loader
                   example_tokenizer false None _ _ _ _ _)).
  - reflexivity.
  - reflexivity.
  - reflexivity.
  - reflexivity.
Defined.

Example train_one_epoch_example_trace :
  train_one_epoch example_args 1 example_laion_loader example_pile_loader
    example_tokenizer false None
  = (Ok tt,
     {| laion_iter := []; pile_iter := [];
        trace :=
          [ModelTrain;
           Forward (Autocast bfloat16) false (Tensor2 3 [[5; 9; 7]])
                   (Tensor2 3 [[-100; -100; 7]]);
           GetTextFeatures;
           Forward (Autocast bfloat16) true (Tensor2 3 [[5; 9; 7]])
                   (Tensor2 3 [[-100; -100; 7]]);
           Backward; ClipGradNorm;
           Forward (Autocast bfloat16) false (Tensor2 3 [[9; 4; 0]])
                   (Tensor2 3 [[-100; 4; -100]]);
           GetTextFeatures;
           Forward (Autocast bfloat16) true (Tensor2 3 [[9; 4; 9]])
                   (Tensor2 3 [[-100; -100; -100]]);
           Backward; ClipGradNorm;
           OptimizerStep; LrSchedulerStep; OptimizerZeroGrad;
           WandbLog "loss_laion" 4 false; WandbLog "loss_pile" 4 true;
           Forward (Autocast bfloat16) false (Tensor2 2 [[9; 5]; [6; 0]])
                   (Tensor2 2 [[-100; 5]; [-100; -100]]);
           GetTextFeatures;
           Forward (Autocast bfloat16) true (Tensor2 2 [[4; 5]; [6; 0]])
                   (Tensor2 2 [[-100; -100]; [-100; -100]]);
           Backward; ClipGradNorm;
           OptimizerStep; LrSchedulerStep; OptimizerZeroGrad;
           WandbLog "loss_laion" 5 false; WandbLog "loss_pile" 5 true] |}).
Proof. reflexivity. Qed.

(** An epoch runs to its end whenever the two assertions pass, the
    tokenizer knows the media placeholder, the accumulation factor is not 0
    and no batch has an empty sequence dimension. *)
Lemma train_step_completes (args : Args) (epoch n : Z)
    (tokenizer : Tokenizer) (media : Z) (use_mapping : bool)
    (num_steps : Z) (bl : laion_batch) (bp : pile_batch) :
  gradient_accumulation_steps args <> 0 ->
  laion_batch_ok bl -> pile_batch_ok bp ->
  exists evs : list event,
    train_step args epoch n tokenizer media use_mapping num_steps bl bp
    = (Ok tt, evs).
Proof.
  intros Hg Hbl [Hrect Hbp]. unfold train_step.
  rewrite (laion_labels_rows _ _ _ Hbl).
  destruct (pile_labels_rows (pad_token_id tokenizer) media
              (pile_input_ids bp) Hrect Hbp) as (lb & -> & _).
  destruct (Z.eqb_spec (gradient_accumulation_steps args) 0); [done |].
  destruct (flush_now _ _ _); by eexists.
Qed.

Lemma train_loop_completes (args : Args) (epoch n : Z)
    (tokenizer : Tokenizer) (media : Z) (use_mapping : bool) :
  gradient_accumulation_steps args <> 0 ->
  forall (laion : list laion_batch) (pile : list pile_batch) (s : Z)
         (tr : list event),
    Forall laion_batch_ok laion -> Forall pile_batch_ok pile ->
    exists w : world,
      train_loop args epoch n tokenizer media use_mapping s laion pile tr
      = (Ok tt, w).
Proof.
  intros Hg. induction laion as [| bl laion IH];
    intros pile s tr Hlaion Hpile; simpl; [by eexists |].
  destruct pile as [| bp pile]; [by eexists |].
  apply Forall_cons in Hlaion as [Hbl Hlaion].
  apply Forall_cons in Hpile as [Hbp Hpile].
  destruct (train_step_completes args epoch n tokenizer media use_mapping
              s bl bp Hg Hbl Hbp) as [evs ->].
  by apply IH.
Qed.

Lemma train_one_epoch_completes (args : Args) (epoch : Z)
    (laion_loader : Loader laion_batch) (pile_loader : Loader pile_batch)
    (tokenizer : Tokenizer) (use_text_to_image_mapping : bool)
    (mapping_matrix_path : option string) :
  gradient_accumulation_steps args <> 0 ->
  num_batches laion_loader = num_batches pile_loader ->
  (use_text_to_image_mapping = true -> truthy mapping_matrix_path = true) ->
  image_input_ids tokenizer <> [] ->
  Forall laion_batch_ok (batches laion_loader) ->
  Forall pile_batch_ok (batches pile_loader) ->
  exists w : world,
    train_one_epoch args epoch laion_loader pile_loader tokenizer
      use_text_to_image_mapping mapping_matrix_path = (Ok tt, w).
Proof.
  intros Hg Hn Hpath Htok Hlaion Hpile. unfold train_one_epoch.
  rewrite (proj2 (Z.eqb_eq _ _) Hn). cbn [negb].
  assert (Hassert : (if use_text_to_image_mapping
                     then truthy mapping_matrix_path else true) = true).
  { destruct use_text_to_image_mapping; [by apply Hpath | done]. }
  rewrite Hassert. cbn [negb]. unfold get_media_token_id.
  destruct (last (image_input_ids tokenizer)) as [media |] eqn:Hlast.
  - by apply train_loop_completes.
  - by apply last_None in Hlast.
Qed.

(** ** The checkpoint filter *)

Section CheckpointFacts.
Context {Tensor : Type}.
Implicit Types (params : list (string * Param Tensor)).
Implicit Types (sd : gmap string Tensor).

(** A key that names no parameter goes through the loop untouched. *)
Lemma delete_frozen_frame params : forall sd sd' (k : string),
  delete_frozen params sd = Ok sd' ->
  k ∉ params.*1 ->
  sd' !! k = sd !! k.
Proof.
  induction params as [| [name p] params IH]; intros sd sd' k Hrun Hk.
  - by injection Hrun as <-.
  - simpl in Hrun, Hk. apply not_elem_of_cons in Hk as [Hne Hk].
    destruct (requires_grad p); simpl in Hrun.
    + by apply IH.
    + destruct (sd !! name); [| discriminate Hrun].
      rewrite (IH _ _ _ Hrun Hk). by apply lookup_delete_ne.
Qed.

(** With distinct names that are all keys, the loop ends normally and
    removes the frozen names and nothing else. *)
Lemma delete_frozen_run params : forall sd,
  NoDup params.*1 ->
  (forall name, name ∈ params.*1 -> is_Some (sd !! name)) ->
  exists sd',
    delete_frozen params sd = Ok sd' /\
    (forall name p, (name, p) ∈ params ->
       sd' !! name = if requires_grad p then sd !! name else None) /\
    (forall k, k ∉ params.*1 -> sd' !! k = sd !! k).
Proof.
  induction params as [| [name p] params IH]; intros sd Hnodup Hkeys.
  - exists sd. split_and!; try done. intros name p H.
    by apply elem_of_nil in H.
  - simpl in Hnodup. apply NoDup_cons in Hnodup as [Hfresh Hnodup].
    assert (Hin : forall n q, (n, q) ∈ params -> n ∈ params.*1).
    { intros n q H. apply list_elem_of_fmap. by exists (n, q). }
    simpl. destruct (requires_grad p) eqn:Hp; simpl.
    + destruct (IH sd Hnodup) as (sd' & Hrun & Hparams & Hframe).
      { intros n Hn. apply Hkeys. simpl. by right. }
      exists sd'. split_and!; try done.
      * intros n q Hnq. apply elem_of_cons in Hnq as [[= -> ->] | Hnq].
        -- rewrite Hp. by apply Hframe.
        -- by apply Hparams.
      * intros k Hk. apply not_elem_of_cons in Hk as [_ Hk].
        by apply Hframe.
    + destruct (Hkeys name) as [t Ht]; [simpl; left |]. rewrite Ht.
      destruct (IH (delete name sd) Hnodup) as (sd' & Hrun & Hparams & Hframe).
      { intros n Hn. rewrite lookup_delete_ne by (intros ->; done).
        apply Hkeys. simpl. by right. }
      exists sd'. split_and!; try done.
      * intros n q Hnq. apply elem_of_cons in Hnq as [[= -> ->] | Hnq].
        -- rewrite Hp, (Hframe name Hfresh). apply lookup_delete_eq.
        -- rewrite (Hparams n q Hnq).
           destruct (requires_grad q); [| done].
           apply lookup_delete_ne. intros ->. apply Hfresh. by eapply Hin.
      * intros k Hk. apply not_elem_of_cons in Hk as [Hne Hk].
        rewrite (Hframe k Hk). by apply lookup_delete_ne.
Qed.

(** C6: [get_checkpoint] returns the state mapping of the model without
    the entries of its frozen parameters: the entry of every parameter
    that requires a gradient is there, as in the model, the entry of
    every parameter that does not is gone, and the model is as it was. *)
Theorem get_checkpoint_filters_frozen (model : Model Tensor) :
  module_invariant model ->
  exists checkpoint : gmap string Tensor,
    get_checkpoint model = (Ok checkpoint, model) /\
    (forall name p, (name, p) ∈ named_parameters model ->
       requires_grad p = true ->
       is_Some (checkpoint !! name) /\
       checkpoint !! name = state_dict model !! name) /\
    (forall name p, (name, p) ∈ named_parameters model ->
       requires_grad p = false -> checkpoint !! name = None) /\
    (forall k, checkpoint !! k
               = if decide (k ∈ (filter (fun np => requires_grad np.2 = false)
                                   (named_parameters model)).*1)
                 then None else state_dict model !! k).
Proof.
  intros [Hnodup Hkeys]. unfold get_checkpoint, state_dict.
  destruct (delete_frozen_run (named_parameters model)
              (state_entries model) Hnodup Hkeys)
    as (sd' & Hrun & Hparams & Hframe).
  exists sd'. rewrite Hrun. split_and!; try done.
  - intros name p Hin Hp. pose proof (Hparams name p Hin) as H.
    rewrite Hp in H. split; [| done]. rewrite H. apply Hkeys.
    apply list_elem_of_fmap. by exists (name, p).
  - intros name p Hin Hp. pose proof (Hparams name p Hin) as H.
    by rewrite Hp in H.
  - intros k. case_decide as Hk.
    + apply list_elem_of_fmap in Hk as ([name p] & -> & Hin).
      apply list_elem_of_filter in Hin as [Hp Hin]. simpl in *.
      pose proof (Hparams name p Hin) as H. by rewrite Hp in H.
    + destruct (decide (k ∈ (named_parameters model).*1)) as [Hin | Hout].
      * apply list_elem_of_fmap in Hin as ([name p] & -> & Hin). simpl in *.
        pose proof (Hparams name p Hin) as H.
        destruct (requires_grad p) eqn:Hp; [done |].
        exfalso. apply Hk. apply list_elem_of_fmap. exists (name, p).
        split; [done |]. by apply list_elem_of_filter.
      * by apply Hframe.
Qed.

(** C10: an entry of the state mapping whose key names no parameter (a
    buffer, say) is in the result of [get_checkpoint] unchanged, whatever
    the [requires_grad] flags are; and the call does return a result for
    a model that meets the module invariant. *)
Theorem get_checkpoint_keeps_other_entries (model : Model Tensor) :
  (forall checkpoint : gmap string Tensor,
      fst (get_checkpoint model) = Ok checkpoint ->
      forall k, k ∉ (named_parameters model).*1 ->
                checkpoint !! k = state_dict model !! k) /\
  (module_invariant model ->
   exists checkpoint : gmap string Tensor,
     fst (get_checkpoint model) = Ok checkpoint).
Proof.
  split.
  - intros checkpoint Hrun k Hk. simpl in Hrun.
    by eapply delete_frozen_frame.
  - intros [Hnodup Hkeys].
    destruct (delete_frozen_run (named_parameters model)
                (state_entries model) Hnodup Hkeys) as (sd' & Hrun & _).
    exists sd'. simpl. exact Hrun.
Qed.
End CheckpointFacts.

Lemma example_model_invariant : module_invariant example_model.
Proof.
  split.
  - apply (bool_decide_unpack _). reflexivity.
  - intros name Hname. simpl in Hname.
    apply elem_of_cons in Hname as [-> | Hname]; [by eexists |].
    apply elem_of_cons in Hname as [-> | Hname]; [by eexists |].
    by apply elem_of_nil in Hname.
Defined.

Lemma get_checkpoint_filters_frozen_witness :
  exists checkpoint : gmap string Z,
    get_checkpoint example_model = (Ok checkpoint, example_model) /\
    checkpoint !! "a"%string = Some 1 /\
    checkpoint !! "b"%string = None.
Proof.
  destruct (get_checkpoint_filters_frozen example_model
              example_model_invariant)
    as (checkpoint & Hrun & Htrain & Hfrozen & _).
  exists checkpoint. split; [exact Hrun |]. split.
  - destruct (Htrain "a"%string {| requires_grad := true; data := 1 |})
      as [_ Ha]; [left | reflexivity |].
    rewrite Ha. reflexivity.
  - apply (Hfrozen "b"%string {| requires_grad := false; data := 2 |});
      [right; left | reflexivity].
Defined.

Lemma get_checkpoint_keeps_other_entries_witness :
  exists checkpoint : gmap string Z,
    fst (get_checkpoint example_model) = Ok checkpoint /\
    checkpoint !! "buf"%string = Some 3.
Proof.
  destruct (get_checkpoint_keeps_other_entries example_model)
    as [Hframe Hruns].
  destruct (Hruns example_model_invariant) as [checkpoint Hrun].
  exists checkpoint. split; [exact Hrun |].
  rewrite (Hframe checkpoint Hrun "buf"%string); [reflexivity |].
  simpl. intros Hin.
  apply elem_of_cons in Hin as [Hin | Hin]; [discriminate Hin |].
  apply elem_of_cons in Hin as [Hin | Hin]; [discriminate Hin |].
  by apply elem_of_nil in Hin.
Defined.

Example get_checkpoint_example :
  fst (get_checkpoint example_model)
  = Ok (<["a" := 1]> (<["buf" := 3]> ∅)).
Proof. by vm_compute. Qed.

(** Outside the module invariant the deletion can fail: a frozen parameter
    whose name is no key of the state dictionary raises [KeyError]. *)
Example get_checkpoint_missing_key :
  fst (get_checkpoint
         {| state_entries := <["a" := 1]> (∅ : gmap string Z);
            named_parameters :=
              [("w"%string, {| requires_grad := false; data := 2 |})] |})
  = Raise (KeyError "w").
Proof. by vm_compute. Qed.

(** * Further properties of the epoch driver *)

(** ** The driver as its loop *)

(** Once both assertions pass and the tokenizer gives the media id, the
    driver is its loop, started at step 0 on the setup trace. *)
Lemma train_one_epoch_loop (args : Args) (epoch : Z)
    (laion_loader : Loader laion_batch) (pile_loader : Loader pile_batch)
    (tokenizer : Tokenizer) (use_mapping : bool) (path : option string)
    (media : Z) :
  num_batches laion_loader = num_batches pile_loader ->
  (use_mapping = true -> truthy path = true) ->
  get_media_token_id tokenizer = Ok media ->
  train_one_epoch args epoch laion_loader pile_loader tokenizer
    use_mapping path
  = train_loop args epoch (num_batches laion_loader) tokenizer media
      use_mapping 0 (batches laion_loader) (batches pile_loader)
      (setup_trace use_mapping path).
Proof.
  intros Hn Hpath Hmedia. unfold train_one_epoch.
  rewrite (proj2 (Z.eqb_eq _ _) Hn). cbn [negb].
  assert (Hassert : (if use_mapping then truthy path else true) = true).
  { destruct use_mapping; [by apply Hpath | done]. }
  rewrite Hassert, Hmedia. reflexivity.
Qed.

(** A run that does not end in an assertion failure or in the tokenizer
    lookup went through the loop. *)
Lemma train_one_epoch_Ok_inv (args : Args) (epoch : Z)
    (laion_loader : Loader laion_batch) (pile_loader : Loader pile_batch)
    (tokenizer : Tokenizer) (use_mapping : bool) (path : option string)
    (w : world) :
  train_one_epoch args epoch laion_loader pile_loader tokenizer
    use_mapping path = (Ok tt, w) ->
  exists media : Z,
    get_media_token_id tokenizer = Ok media /\
    num_batches laion_loader = num_batches pile_loader /\
    (use_mapping = true -> truthy path = true) /\
    train_loop args epoch (num_batches laion_loader) tokenizer media
      use_mapping 0 (batches laion_loader) (batches pile_loader)
      (setup_trace use_mapping path) = (Ok tt, w).
Proof.
  unfold train_one_epoch. intros Hrun.
  destruct (Z.eqb_spec (num_batches laion_loader) (num_batches pile_loader))
    as [Heq | Hne]; [| discriminate Hrun].
  cbn [negb] in Hrun.
  destruct (if use_mapping then truthy path else true) eqn:Hassert;
    [| discriminate Hrun].
  cbn [negb] in Hrun.
  destruct (get_media_token_id tokenizer) as [media | e];
    [| discriminate Hrun].
  exists media. split_and!; try done.
  intros ->. exact Hassert.
Qed.

(** ** Generic facts on the loop *)

Section LoopFacts.
Variables (args : Args) (epoch n : Z) (tokenizer : Tokenizer) (media : Z)
          (use_mapping : bool).

Let step := train_step args epoch n tokenizer media use_mapping.
Let loop := train_loop args epoch n tokenizer media use_mapping.

(** A call made a fixed number of times in each completed iteration is
    made that number of times per pair of batches. *)
Lemma train_loop_count_const (p : event -> bool) (c : nat) :
  (forall s bl bp u evs, step s bl bp = (Ok u, evs) ->
                         count_calls p evs = c) ->
  forall laion pile s tr w,
    loop s laion pile tr = (Ok tt, w) ->
    count_calls p (trace w)
    = (count_calls p tr + c * min (length laion) (length pile))%nat.
Proof.
  intros Hstep. induction laion as [| bl laion IH]; intros pile s tr w Hrun.
  - simpl in Hrun. injection Hrun as <-. simpl. lia.
  - destruct pile as [| bp pile].
    + simpl in Hrun. injection Hrun as <-. simpl. lia.
    + unfold loop in Hrun. simpl in Hrun. fold step in Hrun.
      destruct (step s bl bp) as [[u | e] evs] eqn:Hs; [| discriminate Hrun].
      apply IH in Hrun. rewrite Hrun, count_calls_app, (Hstep _ _ _ _ _ Hs).
      simpl. lia.
Qed.

(** Two calls that every iteration makes in a fixed ratio, whether it
    completes or raises, stay in that ratio over the whole loop. *)
Lemma train_loop_count_ratio (p q : event -> bool) (c : nat) :
  (forall s bl bp r evs, step s bl bp = (r, evs) ->
                         count_calls p evs = (c * count_calls q evs)%nat) ->
  forall laion pile s tr r w,
    loop s laion pile tr = (r, w) ->
    (count_calls p (trace w) + c * count_calls q tr
     = count_calls p tr + c * count_calls q (trace w))%nat.
Proof.
  intros Hstep. induction laion as [| bl laion IH];
    intros pile s tr r w Hrun.
  - simpl in Hrun. injection Hrun as <- <-. simpl. lia.
  - destruct pile as [| bp pile].
    + simpl in Hrun. injection Hrun as <- <-. simpl. lia.
    + unfold loop in Hrun. simpl in Hrun. fold step in Hrun.
      destruct (step s bl bp) as [[u | e] evs] eqn:Hs.
      * apply IH in Hrun. rewrite !count_calls_app in Hrun.
        rewrite (Hstep _ _ _ _ _ Hs) in Hrun. lia.
      * injection Hrun as <- <-. simpl. rewrite !count_calls_app.
        rewrite (Hstep _ _ _ _ _ Hs). lia.
Qed.

(** What a completed loop leaves in the two iterators: [zip] takes from
    the first iterator before it finds the second one exhausted. *)
Lemma train_loop_iters :
  forall laion pile s tr w,
    loop s laion pile tr = (Ok tt, w) ->
    laion_iter w = drop (min (length laion) (S (length pile))) laion /\
    pile_iter w = drop (min (length laion) (length pile)) pile.
Proof.
  induction laion as [| bl laion IH]; intros pile s tr w Hrun.
  - simpl in Hrun. by injection Hrun as <-.
  - destruct pile as [| bp pile].
    + simpl in Hrun. injection Hrun as <-. simpl.
      by rewrite Nat.min_0_r.
    + unfold loop in Hrun. simpl in Hrun. fold step in Hrun.
      destruct (step s bl bp) as [[u | e] evs] eqn:Hs; [| discriminate Hrun].
      apply IH in Hrun. exact Hrun.
Qed.

(** A property of calls that holds of the starting trace and of the calls
    of every iteration holds of the whole trace. *)
Lemma train_loop_Forall (Q : event -> Prop) :
  forall laion pile s tr r w,
    Forall Q tr ->
    (forall k bl bp, laion !! k = Some bl -> pile !! k = Some bp ->
                     Forall Q (snd (step (s + Z.of_nat k) bl bp))) ->
    loop s laion pile tr = (r, w) ->
    Forall Q (trace w).
Proof.
  induction laion as [| bl laion IH]; intros pile s tr r w Htr Hstep Hrun.
  - simpl in Hrun. by injection Hrun as <- <-.
  - destruct pile as [| bp pile].
    + simpl in Hrun. by injection Hrun as <- <-.
    + unfold loop in Hrun. simpl in Hrun. fold step in Hrun.
      pose proof (Hstep 0%nat bl bp eq_refl eq_refl) as H0.
      rewrite Z.add_0_r in H0.
      destruct (step s bl bp) as [[u | e] evs] eqn:Hs; simpl in H0.
      * eapply IH; [| | exact Hrun].
        -- by apply Forall_app.
        -- intros k bl' bp' Hbl' Hbp'.
           replace (s + 1 + Z.of_nat k) with (s + Z.of_nat (S k)) by lia.
           by apply Hstep.
      * injection Hrun as <- <-. simpl. by apply Forall_app.
Qed.

(** The loop stops at the first iteration that raises: if the first [k]
    pairs of batches go through and iteration [k] raises [e], the loop
    raises [e] with [k + 1] batches taken from each iterator. *)
Lemma train_loop_abort :
  forall (k : nat) laion pile s tr wk bl bp e evs,
    laion !! k = Some bl -> pile !! k = Some bp ->
    loop s (take k laion) (take k pile) tr = (Ok tt, wk) ->
    step (s + Z.of_nat k) bl bp = (Raise e, evs) ->
    loop s laion pile tr
    = (Raise e, {| laion_iter := drop (S k) laion;
                   pile_iter := drop (S k) pile;
                   trace := trace wk ++ evs |}).
Proof.
  induction k as [| k IH];
    intros laion pile s tr wk bl bp e evs Hbl Hbp Hprefix Hstep.
  - destruct laion as [| bl0 laion]; [discriminate Hbl |].
    destruct pile as [| bp0 pile]; [discriminate Hbp |].
    simpl in Hbl, Hbp. injection Hbl as ->. injection Hbp as ->.
    rewrite !take_0 in Hprefix. simpl in Hprefix. injection Hprefix as <-.
    rewrite Z.add_0_r in Hstep.
    unfold loop. simpl. fold step. rewrite Hstep. by rewrite !drop_0.
  - destruct laion as [| bl0 laion]; [discriminate Hbl |].
    destruct pile as [| bp0 pile]; [discriminate Hbp |].
    simpl in Hbl, Hbp.
    unfold loop in Hprefix |- *. simpl in Hprefix |- *. fold step in Hprefix |- *.
    destruct (step s bl0 bp0) as [[u | e0] evs0] eqn:Hs;
      [| discriminate Hprefix].
    fold loop in Hprefix |- *.
    apply (IH laion pile (s + 1) (tr ++ evs0) wk bl bp e evs Hbl Hbp Hprefix).
    replace (s + 1 + Z.of_nat k) with (s + Z.of_nat (S k)) by lia.
    exact Hstep.
Qed.

End LoopFacts.

(** ** One iteration *)

(** The calls of an iteration that completes. *)
Lemma train_step_budget (args : Args) (epoch n : Z) (tokenizer : Tokenizer)
    (media : Z) (use_mapping : bool) (s : Z) (bl : laion_batch)
    (bp : pile_batch) (u : unit) (evs : list event) :
  train_step args epoch n tokenizer media use_mapping s bl bp = (Ok u, evs) ->
  count_calls is_forward evs = 2%nat /\
  count_calls is_get_text_features evs = 1%nat /\
  count_calls is_text_to_image_transform evs
  = (if use_mapping then 1%nat else 0%nat) /\
  count_calls is_backward evs = 1%nat /\
  count_calls is_clip_grad_norm evs = 1%nat /\
  count_calls is_model_train evs = 0%nat /\
  count_calls is_load_mapping_matrix evs = 0%nat.
Proof.
  unfold train_step.
  destruct (laion_labels _ _ _) as [la |]; [| discriminate].
  destruct (pile_labels _ _ _) as [lb |]; [| discriminate].
  destruct (gradient_accumulation_steps args =? 0); [discriminate |].
  destruct (flush_now _ _ _); intros [= <- <-];
    destruct use_mapping, ((rank args =? 0) && report_to_wandb args);
    split_and!; reflexivity.
Qed.

(** Whatever the outcome of an iteration, it advances the scheduler and
    clears the gradients as often as it steps the optimizer, and it logs
    two metrics per optimizer step when the process has rank 0 and
    reports, none otherwise. *)
Lemma train_step_ratio (args : Args) (epoch n : Z) (tokenizer : Tokenizer)
    (media : Z) (use_mapping : bool) (s : Z) (bl : laion_batch)
    (bp : pile_batch) (r : result unit) (evs : list event) :
  train_step args epoch n tokenizer media use_mapping s bl bp = (r, evs) ->
  count_calls is_lr_scheduler_step evs
  = (1 * count_calls is_optimizer_step evs)%nat /\
  count_calls is_zero_grad evs
  = (1 * count_calls is_optimizer_step evs)%nat /\
  count_calls is_wandb_log evs
  = ((if (rank args =? 0)%Z && report_to_wandb args then 2 else 0)
     * count_calls is_optimizer_step evs)%nat.
Proof.
  unfold train_step.
  destruct (laion_labels _ _ _) as [la |];
    [| intros [= <- <-]; split_and!;
       by destruct ((rank args =? 0) && report_to_wandb args)].
  destruct (pile_labels _ _ _) as [lb |];
    [| intros [= <- <-]; destruct use_mapping; split_and!;
       by destruct ((rank args =? 0) && report_to_wandb args)].
  destruct (gradient_accumulation_steps args =? 0);
    [intros [= <- <-]; destruct use_mapping; split_and!;
     by destruct ((rank args =? 0) && report_to_wandb args) |].
  destruct (flush_now _ _ _); intros [= <- <-];
    destruct use_mapping, ((rank args =? 0) && report_to_wandb args);
    split_and!; reflexivity.
Qed.

Lemma setup_trace_counts (use_mapping : bool) (path : option string) :
  count_calls is_model_train (setup_trace use_mapping path) = 1%nat /\
  count_calls is_load_mapping_matrix (setup_trace use_mapping path)
  = (if use_mapping then 1%nat else 0%nat) /\
  count_calls is_forward (setup_trace use_mapping path) = 0%nat /\
  count_calls is_get_text_features (setup_trace use_mapping path) = 0%nat /\
  count_calls is_text_to_image_transform (setup_trace use_mapping path)
  = 0%nat /\
  count_calls is_backward (setup_trace use_mapping path) = 0%nat /\
  count_calls is_clip_grad_norm (setup_trace use_mapping path) = 0%nat /\
  count_calls is_optimizer_step (setup_trace use_mapping path) = 0%nat /\
  count_calls is_lr_scheduler_step (setup_trace use_mapping path) = 0%nat /\
  count_calls is_zero_grad (setup_trace use_mapping path) = 0%nat /\
  count_calls is_wandb_log (setup_trace use_mapping path) = 0%nat.
Proof. destruct use_mapping; split_and!; reflexivity. Qed.

(** ** A completed epoch *)

(** X1: an epoch that ends without exception runs one iteration per pair
    of batches that the two loaders yield. It puts the model in training
    mode once, loads the mapping weights once if the mapping is requested,
    and per iteration makes two forward passes, one text-feature
    extraction, one backward pass and one gradient clipping; the
    text-to-image transform is applied once per iteration if requested and
    never otherwise. *)
Theorem train_one_epoch_call_budget (args : Args) (epoch : Z)
    (laion_loader : Loader laion_batch) (pile_loader : Loader pile_batch)
    (tokenizer : Tokenizer) (use_text_to_image_mapping : bool)
    (mapping_matrix_path : option string) (w : world) :
  train_one_epoch args epoch laion_loader pile_loader tokenizer
    use_text_to_image_mapping mapping_matrix_path = (Ok tt, w) ->
  let m := min (length (batches laion_loader))
               (length (batches pile_loader)) in
  count_calls is_model_train (trace w) = 1%nat /\
  count_calls is_load_mapping_matrix (trace w)
  = (if use_text_to_image_mapping then 1%nat else 0%nat) /\
  count_calls is_forward (trace w) = (2 * m)%nat /\
  count_calls is_get_text_features (trace w) = m /\
  count_calls is_text_to_image_transform (trace w)
  = (if use_text_to_image_mapping then m else 0%nat) /\
  count_calls is_backward (trace w) = m /\
  count_calls is_clip_grad_norm (trace w) = m.
Proof.
  intros Hrun m.
  apply train_one_epoch_Ok_inv in Hrun as (media & _ & _ & _ & Hloop).
  pose proof (setup_trace_counts use_text_to_image_mapping
                mapping_matrix_path)
    as (Ht & Hl & Hf & Hg & Hx & Hb & Hc & _).
  assert (Hcount : forall p c,
    (forall s bl bp u evs,
        train_step args epoch (num_batches laion_loader) tokenizer media
          use_text_to_image_mapping s bl bp = (Ok u, evs) ->
        count_calls p evs = c) ->
    count_calls p (trace w)
    = (count_calls p (setup_trace use_text_to_image_mapping
                        mapping_matrix_path) + c * m)%nat).
  { intros p c Hstep.
    exact (train_loop_count_const args epoch _ tokenizer media
             use_text_to_image_mapping p c Hstep _ _ _ _ _ Hloop). }
  split_and!.
  - rewrite (Hcount is_model_train 0%nat), Ht; [lia |].
    intros s bl bp u evs Hs. apply train_step_budget in Hs. tauto.
  - rewrite (Hcount is_load_mapping_matrix 0%nat), Hl; [lia |].
    intros s bl bp u evs Hs. apply train_step_budget in Hs. tauto.
  - rewrite (Hcount is_forward 2%nat), Hf; [lia |].
    intros s bl bp u evs Hs. apply train_step_budget in Hs. tauto.
  - rewrite (Hcount is_get_text_features 1%nat), Hg; [lia |].
    intros s bl bp u evs Hs. apply train_step_budget in Hs. tauto.
  - rewrite (Hcount is_text_to_image_transform
               (if use_text_to_image_mapping then 1%nat else 0%nat)), Hx.
    + destruct use_text_to_image_mapping; lia.
    + intros s bl bp u evs Hs. apply train_step_budget in Hs. tauto.
  - rewrite (Hcount is_backward 1%nat), Hb; [lia |].
    intros s bl bp u evs Hs. apply train_step_budget in Hs. tauto.
  - rewrite (Hcount is_clip_grad_norm 1%nat), Hc; [lia |].
    intros s bl bp u evs Hs. apply train_step_budget in Hs. tauto.
Qed.

Lemma train_one_epoch_call_budget_witness :
  count_calls is_forward
    (trace (snd (train_one_epoch example_args 1 example_laion_loader
                   example_pile_loader example_tokenizer false None)))
  = 6%nat /\
  count_calls is_backward
    (trace (snd (train_one_epoch example_args 1 example_laion_loader
                   example_pile_loader example_tokenizer false None)))
  = 3%nat.
Proof.
  destruct (train_one_epoch_call_budget example_args 1 example_laion_loader
              example_pile_loader example_tokenizer false None _ eq_refl)
    as (_ & _ & Hf & _ & _ & Hb & _).
  split; [exact Hf | exact Hb].
Defined.

(** X2: after an epoch that ends without exception the second loader has
    lost as many batches as iterations were run, and the first loader one
    more when it is the longer one ([zip] takes from it before it finds
    the second exhausted). Loaders that yield equally many batches are
    both left empty. *)
Theorem train_one_epoch_consumes (args : Args) (epoch : Z)
    (laion_loader : Loader laion_batch) (pile_loader : Loader pile_batch)
    (tokenizer : Tokenizer) (use_text_to_image_mapping : bool)
    (mapping_matrix_path : option string) (w : world) :
  train_one_epoch args epoch laion_loader pile_loader tokenizer
    use_text_to_image_mapping mapping_matrix_path = (Ok tt, w) ->
  laion_iter w
  = drop (min (length (batches laion_loader))
              (S (length (batches pile_loader)))) (batches laion_loader) /\
  pile_iter w
  = drop (min (length (batches laion_loader))
              (length (batches pile_loader))) (batches pile_loader) /\
  (length (batches laion_loader) = length (batches pile_loader) ->
   laion_iter w = [] /\ pile_iter w = []).
Proof.
  intros Hrun.
  apply train_one_epoch_Ok_inv in Hrun as (media & _ & _ & _ & Hloop).
  apply train_loop_iters in Hloop as [Hl Hp].
  split_and!; try done.
  intros Hlen. rewrite Hl, Hp, <- Hlen. split; apply drop_ge; lia.
Qed.

Lemma train_one_epoch_consumes_witness :
  laion_iter
    (snd (train_one_epoch example_args 1
            {| num_batches := 3;
               batches := [ {| laion_input_ids := Tensor2 1 [[5]] |};
                            {| laion_input_ids := Tensor2 1 [[6]] |};
                            {| laion_input_ids := Tensor2 1 [[7]] |} ] |}
            {| num_batches := 3;
               batches := [ {| pile_input_ids := Tensor2 1 [[9]] |} ] |}
            example_tokenizer false None))
  = [ {| laion_input_ids := Tensor2 1 [[7]] |} ].
Proof.
  exact (proj1 (train_one_epoch_consumes example_args 1
                  {| num_batches := 3;
                     batches := [ {| laion_input_ids := Tensor2 1 [[5]] |};
                                  {| laion_input_ids := Tensor2 1 [[6]] |};
                                  {| laion_input_ids := Tensor2 1 [[7]] |} ] |}
                  {| num_batches := 3;
                     batches := [ {| pile_input_ids := Tensor2 1 [[9]] |} ] |}
                  example_tokenizer false None _ eq_refl)).
Defined.

(** ** Flushes when the loaders do not yield what they declare *)

(** The flushes of the loop from step [s] over [m] pairs of batches: one
    per multiple of [g] among [s + 1 .. s + m], and one more for step
    [n - 1] when it is among the steps run and [n] is no multiple of
    [g]. *)
Lemma train_loop_flush_general (p : event -> bool) (args : Args)
    (epoch n : Z) (tokenizer : Tokenizer) (media : Z) (use_mapping : bool) :
  flush_call p ->
  0 < gradient_accumulation_steps args ->
  forall (laion : list laion_batch) (pile : list pile_batch) (s : Z)
         (tr : list event) (w : world),
    0 <= s ->
    train_loop args epoch n tokenizer media use_mapping s laion pile tr
    = (Ok tt, w) ->
    let g := gradient_accumulation_steps args in
    let m := Z.of_nat (min (length laion) (length pile)) in
    Z.of_nat (count_calls p (trace w))
    = Z.of_nat (count_calls p tr) + ((s + m) / g - s / g)
      + (if (s <=? n - 1) && (n - 1 <? s + m) && negb (n mod g =? 0)
         then 1 else 0).
Proof.
  intros Hp Hg. set (g := gradient_accumulation_steps args) in *.
  assert (Hbase : forall s tr, 0 <= s ->
    Z.of_nat (count_calls p tr)
    = Z.of_nat (count_calls p tr) + ((s + Z.of_nat 0) / g - s / g)
      + (if (s <=? n - 1) && (n - 1 <? s + Z.of_nat 0)
            && negb (n mod g =? 0)
         then 1 else 0)).
  { intros s tr Hs. change (Z.of_nat 0) with 0. rewrite Z.add_0_r.
    destruct (Z.leb_spec s (n - 1)), (Z.ltb_spec (n - 1) s);
      cbn [andb]; lia. }
  induction laion as [| bl laion IH]; intros pile s tr w Hs Hrun; cbn zeta.
  - simpl in Hrun. injection Hrun as <-. simpl trace.
    change (min (length []) (length pile)) with 0%nat. by apply Hbase.
  - destruct pile as [| bp pile].
    + simpl in Hrun. injection Hrun as <-. simpl trace.
      change (min (length (bl :: laion)) (length [])) with 0%nat.
      by apply Hbase.
    + simpl in Hrun.
      destruct (train_step args epoch n tokenizer media use_mapping s bl bp)
        as [[u | e] evs] eqn:Hstep; [| discriminate Hrun].
      pose proof (train_step_flush p _ _ _ _ _ _ _ _ _ _ _ Hp Hstep) as Hevs.
      fold g in Hevs.
      apply IH in Hrun; [| lia]. cbn zeta in Hrun.
      rewrite Hrun, count_calls_app, Hevs. unfold flush_now.
      pose proof (div_succ g s Hg Hs) as Hdiv.
      change (min (length (bl :: laion)) (length (bp :: pile)))
        with (S (min (length laion) (length pile))).
      set (m := min (length laion) (length pile)).
      replace (s + Z.of_nat (S m)) with (s + 1 + Z.of_nat m) by lia.
      destruct (Z.eqb_spec s (n - 1)) as [Hlast | Hnot].
      * rewrite orb_true_r.
        replace n with (s + 1) by lia.
        replace (s + 1 - 1) with s by lia.
        destruct (Z.leb_spec (s + 1) s); [lia |].
        destruct (Z.leb_spec s s); [| lia].
        destruct (Z.ltb_spec s (s + 1 + Z.of_nat m)); [| lia].
        cbn [andb].
        destruct ((s + 1) mod g =? 0); cbn [negb]; lia.
      * rewrite orb_false_r.
        destruct (Z.leb_spec (s + 1) (n - 1)), (Z.leb_spec s (n - 1));
          try lia; cbn [andb]; destruct ((s + 1) mod g =? 0); lia.
Qed.

(** X3: for a positive accumulation factor [g], an epoch that ends without
    exception after [m] iterations (the number of pairs of batches the
    loaders yield, whatever they declare) steps the optimizer, advances
    the scheduler and clears the gradients [m / g] times (rounded down),
    plus once for the forced flush of step [n - 1] when that step is run
    and the declared count [n] is no multiple of [g]. When the loaders
    yield fewer batches than declared, the forced flush never comes. *)
Theorem train_one_epoch_flush_count_any_length (args : Args) (epoch : Z)
    (laion_loader : Loader laion_batch) (pile_loader : Loader pile_batch)
    (tokenizer : Tokenizer) (use_text_to_image_mapping : bool)
    (mapping_matrix_path : option string) (w : world) (p : event -> bool) :
  flush_call p ->
  0 < gradient_accumulation_steps args ->
  train_one_epoch args epoch laion_loader pile_loader tokenizer
    use_text_to_image_mapping mapping_matrix_path = (Ok tt, w) ->
  let g := gradient_accumulation_steps args in
  let n := num_batches laion_loader in
  let m := Z.of_nat (min (length (batches laion_loader))
                         (length (batches pile_loader))) in
  Z.of_nat (count_calls p (trace w))
  = m / g + (if (1 <=? n) && (n <=? m) && negb (n mod g =? 0)
             then 1 else 0) /\
  (m < n -> Z.of_nat (count_calls p (trace w)) = m / g).
Proof.
  intros Hp Hg Hrun g n m.
  apply train_one_epoch_Ok_inv in Hrun as (media & _ & _ & _ & Hloop).
  pose proof (train_loop_flush_general p args epoch n tokenizer media
                use_text_to_image_mapping Hp Hg _ _ 0 _ w (Z.le_refl 0)
                Hloop) as Hcount.
  cbn zeta in Hcount. fold g m in Hcount.
  assert (H0 : count_calls p (setup_trace use_text_to_image_mapping
                                mapping_matrix_path) = 0%nat).
  { pose proof (setup_trace_counts use_text_to_image_mapping
                  mapping_matrix_path) as (_ & _ & _ & _ & _ & _ & _ & Ho & Hs & Hz & _).
    destruct Hp as [-> | [-> | ->]]; assumption. }
  rewrite H0, Z.div_0_l, !Z.add_0_l, Z.sub_0_r in Hcount by lia.
  assert (Hind : (0 <=? n - 1) && (n - 1 <? m) = (1 <=? n) && (n <=? m)).
  { destruct (Z.leb_spec 0 (n - 1)), (Z.ltb_spec (n - 1) m),
      (Z.leb_spec 1 n), (Z.leb_spec n m); cbn [andb]; lia. }
  rewrite Hind in Hcount. split; [exact Hcount |].
  intros Hshort. rewrite Hcount.
  destruct (Z.leb_spec n m); [lia |]. rewrite andb_false_r. cbn [andb]. lia.
Qed.

Lemma train_one_epoch_flush_count_any_length_witness :
  Z.of_nat
    (count_calls is_optimizer_step
       (trace (snd (train_one_epoch example_args 1
                      {| num_batches := 5;
                         batches := batches example_laion_loader |}
                      {| num_batches := 5;
                         batches := batches example_pile_loader |}
                      example_tokenizer false None))))
  = 1.
Proof.
  refine (proj2 (train_one_epoch_flush_count_any_length example_args 1
                   {| num_batches := 5;
                      batches := batches example_laion_loader |}
                   {| num_batches := 5;
                      batches := batches example_pile_loader |}
                   example_tokenizer false None _ is_optimizer_step
                   _ _ eq_refl) _).
  - left. reflexivity.
  - reflexivity.
  - reflexivity.
Defined.

(** ** Epochs that abort *)

Lemma train_step_zero_accumulation (args : Args) (epoch n : Z)
    (tokenizer : Tokenizer) (media : Z) (use_mapping : bool) (s : Z)
    (bl : laion_batch) (bp : pile_batch) :
  gradient_accumulation_steps args = 0 ->
  laion_batch_ok bl -> pile_batch_ok bp ->
  exists evs : list event,
    train_step args epoch n tokenizer media use_mapping s bl bp
    = (Raise ZeroDivisionError, evs) /\
    count_calls is_forward evs = 2%nat /\
    count_calls is_backward evs = 1%nat /\
    count_calls is_clip_grad_norm evs = 1%nat /\
    count_calls is_optimizer_step evs = 0%nat.
Proof.
  intros Hg Hbl [Hrect Hbp]. unfold train_step.
  rewrite (laion_labels_rows _ _ _ Hbl).
  destruct (pile_labels_rows (pad_token_id tokenizer) media
              (pile_input_ids bp) Hrect Hbp) as (lb & -> & _).
  rewrite Hg. simpl (0 =? 0). cbv iota.
  eexists. split; [reflexivity |].
  destruct use_mapping; split_and!; reflexivity.
Qed.

Lemma count_calls_cons (p : event -> bool) (e : event) (tr : list event) :
  count_calls p (e :: tr)
  = ((if p e then 1 else 0) + count_calls p tr)%nat.
Proof.
  unfold count_calls. rewrite filter_cons.
  destruct (p e); case_decide; done.
Qed.

Lemma count_calls_setup_app (p : event -> bool) (use_mapping : bool)
    (path : option string) (evs : list event) :
  p ModelTrain = false ->
  (forall q, p (LoadMappingMatrix q) = false) ->
  count_calls p (setup_trace use_mapping path ++ evs) = count_calls p evs.
Proof.
  intros Ht Hl. rewrite count_calls_app. unfold setup_trace.
  destruct use_mapping; simpl app;
    rewrite !count_calls_cons, ?Hl, Ht; reflexivity.
Qed.

(** X4: with [gradient_accumulation_steps = 0] the driver does not fail
    at once: on loaders whose first batches are well shaped it runs the two
    forward passes, the backward pass and the gradient clipping of step 0,
    and then raises [ZeroDivisionError] at the flush test, with one batch
    taken from each loader and no optimizer step made. *)
Theorem train_one_epoch_zero_accumulation (args : Args) (epoch : Z)
    (laion_loader : Loader laion_batch) (pile_loader : Loader pile_batch)
    (tokenizer : Tokenizer) (use_text_to_image_mapping : bool)
    (mapping_matrix_path : option string)
    (bl : laion_batch) (laion' : list laion_batch)
    (bp : pile_batch) (pile' : list pile_batch) :
  gradient_accumulation_steps args = 0 ->
  num_batches laion_loader = num_batches pile_loader ->
  (use_text_to_image_mapping = true -> truthy mapping_matrix_path = true) ->
  image_input_ids tokenizer <> [] ->
  batches laion_loader = bl :: laion' ->
  batches pile_loader = bp :: pile' ->
  laion_batch_ok bl -> pile_batch_ok bp ->
  exists w : world,
    train_one_epoch args epoch laion_loader pile_loader tokenizer
      use_text_to_image_mapping mapping_matrix_path
    = (Raise ZeroDivisionError, w) /\
    laion_iter w = laion' /\ pile_iter w = pile' /\
    count_calls is_forward (trace w) = 2%nat /\
    count_calls is_backward (trace w) = 1%nat /\
    count_calls is_clip_grad_norm (trace w) = 1%nat /\
    count_calls is_optimizer_step (trace w) = 0%nat.
Proof.
  intros Hg Hn Hpath Htok Hlaion Hpile Hbl Hbp.
  destruct (get_media_token_id tokenizer) as [media | e] eqn:Hmedia.
  2:{ unfold get_media_token_id in Hmedia.
      destruct (last (image_input_ids tokenizer)) eqn:Hlast;
        [discriminate Hmedia |]. by apply last_None in Hlast. }
  rewrite (train_one_epoch_loop _ _ _ _ _ _ _ media Hn Hpath Hmedia).
  rewrite Hlaion, Hpile. simpl.
  destruct (train_step_zero_accumulation args epoch
              (num_batches laion_loader) tokenizer media
              use_text_to_image_mapping 0 bl bp Hg Hbl Hbp)
    as (evs & -> & Hf & Hb & Hc & Ho).
  eexists. split; [reflexivity |]. simpl.
  rewrite !count_calls_setup_app by done. by split_and!.
Qed.

Lemma train_one_epoch_zero_accumulation_witness :
  exists w : world,
    train_one_epoch
      {| precision := "fp32"; gradient_accumulation_steps := 0;
         rank := 0; report_to_wandb := false |}
      0 example_laion_loader example_pile_loader example_tokenizer
      false None
    = (Raise ZeroDivisionError, w) /\
    length (laion_iter w) = 2%nat /\
    count_calls is_optimizer_step (trace w) = 0%nat.
Proof.
  destruct (train_one_epoch_zero_accumulation
              {| precision := "fp32"; gradient_accumulation_steps := 0;
                 rank := 0; report_to_wandb := false |}
              0 example_laion_loader example_pile_loader example_tokenizer
              false None
              {| laion_input_ids := Tensor2 3 [[5; 9; 7]] |}
              [ {| laion_input_ids := Tensor2 3 [[9; 4; 0]] |};
                {| laion_input_ids := Tensor2 2 [[9; 5]; [6; 0]] |} ]
              {| pile_input_ids := Tensor2 3 [[5; 9; 7]] |}
              [ {| pile_input_ids := Tensor2 3 [[9; 4; 9]] |};
                {| pile_input_ids := Tensor2 2 [[4; 5]; [6; 0]] |} ])
    as (w & Hrun & Hl & _ & _ & _ & _ & Ho).
  - reflexivity.
  - reflexivity.
  - intros H; discriminate H.
  - discriminate.
  - reflexivity.
  - reflexivity.
  - unfold laion_batch_ok. simpl. lia.
  - split; [repeat constructor | simpl; lia].
  - exists w. split; [exact Hrun |]. rewrite Hl.
    split; [reflexivity | exact Ho].
Defined.

Lemma train_step_laion_empty (args : Args) (epoch n : Z)
    (tokenizer : Tokenizer) (media : Z) (use_mapping : bool) (s : Z)
    (bl : laion_batch) (bp : pile_batch) :
  shape1 (laion_input_ids bl) = 0%nat ->
  train_step args epoch n tokenizer media use_mapping s bl bp
  = (Raise IndexError, []).
Proof.
  intros H0. unfold train_step, laion_labels, clone, fill_column0. simpl.
  by rewrite H0.
Qed.

Lemma train_step_pile_empty (args : Args) (epoch n : Z)
    (tokenizer : Tokenizer) (media : Z) (use_mapping : bool) (s : Z)
    (bl : laion_batch) (bp : pile_batch) :
  laion_batch_ok bl ->
  shape1 (pile_input_ids bp) = 0%nat ->
  exists evs : list event,
    train_step args epoch n tokenizer media use_mapping s bl bp
    = (Raise IndexError, evs) /\
    count_calls is_forward evs = 1%nat /\
    count_calls is_get_text_features evs = 1%nat /\
    count_calls is_backward evs = 0%nat.
Proof.
  intros Hbl H0. unfold train_step.
  rewrite (laion_labels_rows _ _ _ Hbl).
  unfold pile_labels, clone, fill_column0. simpl. rewrite H0. simpl.
  eexists. split; [reflexivity |].
  destruct use_mapping; split_and!; reflexivity.
Qed.

(** The driver on loaders whose first [k] pairs of batches are well shaped
    and whose iteration [k] raises. *)
Lemma train_one_epoch_abort_at (args : Args) (epoch : Z)
    (laion_loader : Loader laion_batch) (pile_loader : Loader pile_batch)
    (tokenizer : Tokenizer) (use_mapping : bool) (path : option string)
    (media : Z) (k : nat) (bl : laion_batch) (bp : pile_batch)
    (e : exn) (evs : list event) :
  gradient_accumulation_steps args <> 0 ->
  num_batches laion_loader = num_batches pile_loader ->
  (use_mapping = true -> truthy path = true) ->
  get_media_token_id tokenizer = Ok media ->
  Forall laion_batch_ok (take k (batches laion_loader)) ->
  Forall pile_batch_ok (take k (batches pile_loader)) ->
  batches laion_loader !! k = Some bl ->
  batches pile_loader !! k = Some bp ->
  train_step args epoch (num_batches laion_loader) tokenizer media
    use_mapping (Z.of_nat k) bl bp = (Raise e, evs) ->
  exists wk : world,
    train_one_epoch args epoch laion_loader pile_loader tokenizer
      use_mapping path
    = (Raise e, {| laion_iter := drop (S k) (batches laion_loader);
                   pile_iter := drop (S k) (batches pile_loader);
                   trace := trace wk ++ evs |}) /\
    count_calls is_forward (trace wk) = (2 * k)%nat /\
    count_calls is_backward (trace wk) = k /\
    count_calls is_optimizer_step (trace wk)
    = count_calls is_lr_scheduler_step (trace wk).
Proof.
  intros Hg Hn Hpath Hmedia Hlaion Hpile Hbl Hbp Hstep.
  destruct (train_loop_completes args epoch (num_batches laion_loader)
              tokenizer media use_mapping Hg
              (take k (batches laion_loader)) (take k (batches pile_loader))
              0 (setup_trace use_mapping path) Hlaion Hpile)
    as [wk Hprefix].
  exists wk. split_and!.
  - rewrite (train_one_epoch_loop _ _ _ _ _ _ _ media Hn Hpath Hmedia).
    by apply (train_loop_abort args epoch _ tokenizer media use_mapping k
                _ _ 0 _ wk bl bp e evs).
  - rewrite (train_loop_count_const args epoch _ tokenizer media use_mapping
               is_forward 2%nat
               ltac:(intros ? ? ? ? ? Hs; apply train_step_budget in Hs; tauto)
               _ _ _ _ _ Hprefix).
    pose proof (setup_trace_counts use_mapping path) as (_ & _ & -> & _).
    rewrite !length_take.
    apply lookup_lt_Some in Hbl. apply lookup_lt_Some in Hbp. lia.
  - rewrite (train_loop_count_const args epoch _ tokenizer media use_mapping
               is_backward 1%nat
               ltac:(intros ? ? ? ? ? Hs; apply train_step_budget in Hs; tauto)
               _ _ _ _ _ Hprefix).
    pose proof (setup_trace_counts use_mapping path)
      as (_ & _ & _ & _ & _ & -> & _).
    rewrite !length_take.
    apply lookup_lt_Some in Hbl. apply lookup_lt_Some in Hbp. lia.
  - pose proof (train_loop_count_ratio args epoch _ tokenizer media
                  use_mapping is_lr_scheduler_step is_optimizer_step 1%nat
                  ltac:(intros ? ? ? ? ? Hs; apply train_step_ratio in Hs; tauto)
                  _ _ _ _ _ _ Hprefix) as Hratio.
    pose proof (setup_trace_counts use_mapping path)
      as (_ & _ & _ & _ & _ & _ & _ & Ho & Hs & _).
    rewrite Ho, Hs in Hratio. lia.
Qed.

Lemma get_media_token_id_Ok (tokenizer : Tokenizer) :
  image_input_ids tokenizer <> [] ->
  exists media : Z, get_media_token_id tokenizer = Ok media.
Proof.
  intros Htok. unfold get_media_token_id.
  destruct (last (image_input_ids tokenizer)) as [media |] eqn:Hlast.
  - by exists media.
  - by apply last_None in Hlast.
Qed.

(** X5: a source-A batch with an empty sequence dimension aborts the
    epoch. If the first [k] pairs of batches are well shaped and the
    source-A batch of step [k] has [shape[1] = 0], the driver raises
    [IndexError] (from [labels[:, 0] = -100]) before any forward pass of
    step [k]: [k + 1] batches are gone from each loader, and the trace
    holds the [2 * k] forward and [k] backward passes of the steps
    before. *)
Theorem train_one_epoch_empty_laion_batch (args : Args) (epoch : Z)
    (laion_loader : Loader laion_batch) (pile_loader : Loader pile_batch)
    (tokenizer : Tokenizer) (use_text_to_image_mapping : bool)
    (mapping_matrix_path : option string)
    (k : nat) (bl : laion_batch) (bp : pile_batch) :
  gradient_accumulation_steps args <> 0 ->
  num_batches laion_loader = num_batches pile_loader ->
  (use_text_to_image_mapping = true -> truthy mapping_matrix_path = true) ->
  image_input_ids tokenizer <> [] ->
  Forall laion_batch_ok (take k (batches laion_loader)) ->
  Forall pile_batch_ok (take k (batches pile_loader)) ->
  batches laion_loader !! k = Some bl ->
  batches pile_loader !! k = Some bp ->
  shape1 (laion_input_ids bl) = 0%nat ->
  exists w : world,
    train_one_epoch args epoch laion_loader pile_loader tokenizer
      use_text_to_image_mapping mapping_matrix_path
    = (Raise IndexError, w) /\
    laion_iter w = drop (S k) (batches laion_loader) /\
    pile_iter w = drop (S k) (batches pile_loader) /\
    count_calls is_forward (trace w) = (2 * k)%nat /\
    count_calls is_backward (trace w) = k.
Proof.
  intros Hg Hn Hpath Htok Hlaion Hpile Hbl Hbp H0.
  destruct (get_media_token_id_Ok tokenizer Htok) as [media Hmedia].
  destruct (train_one_epoch_abort_at args epoch laion_loader pile_loader
              tokenizer use_text_to_image_mapping mapping_matrix_path media
              k bl bp IndexError [] Hg Hn Hpath Hmedia Hlaion Hpile Hbl Hbp)
    as (wk & Hrun & Hf & Hb & _).
  { by apply train_step_laion_empty. }
  eexists. split; [exact Hrun |]. simpl. rewrite app_nil_r. by split_and!.
Qed.

(** X6: a source-B batch with an empty sequence dimension aborts the epoch
    after the source-A forward pass of its step. If the first [k] pairs of
    batches and the source-A batch of step [k] are well shaped and the
    source-B batch of step [k] has [shape[1] = 0], the driver raises
    [IndexError] with [2 * k + 1] forward passes made and only [k]
    backward passes: the loss of that last forward pass is never
    back-propagated. *)
Theorem train_one_epoch_empty_pile_batch (args : Args) (epoch : Z)
    (laion_loader : Loader laion_batch) (pile_loader : Loader pile_batch)
    (tokenizer : Tokenizer) (use_text_to_image_mapping : bool)
    (mapping_matrix_path : option string)
    (k : nat) (bl : laion_batch) (bp : pile_batch) :
  gradient_accumulation_steps args <> 0 ->
  num_batches laion_loader = num_batches pile_loader ->
  (use_text_to_image_mapping = true -> truthy mapping_matrix_path = true) ->
  image_input_ids tokenizer <> [] ->
  Forall laion_batch_ok (take k (batches laion_loader)) ->
  Forall pile_batch_ok (take k (batches pile_loader)) ->
  batches laion_loader !! k = Some bl ->
  batches pile_loader !! k = Some bp ->
  laion_batch_ok bl ->
  shape1 (pile_input_ids bp) = 0%nat ->
  exists w : world,
    train_one_epoch args epoch laion_loader pile_loader tokenizer
      use_text_to_image_mapping mapping_matrix_path
    = (Raise IndexError, w) /\
    laion_iter w = drop (S k) (batches laion_loader) /\
    pile_iter w = drop (S k) (batches pile_loader) /\
    count_calls is_forward (trace w) = (2 * k + 1)%nat /\
    count_calls is_backward (trace w) = k.
Proof.
  intros Hg Hn Hpath Htok Hlaion Hpile Hbl Hbp Hok H0.
  destruct (get_media_token_id_Ok tokenizer Htok) as [media Hmedia].
  destruct (train_step_pile_empty args epoch (num_batches laion_loader)
              tokenizer media use_text_to_image_mapping (Z.of_nat k) bl bp
              Hok H0) as (evs & Hstep & Hfe & _ & Hbe).
  destruct (train_one_epoch_abort_at args epoch laion_loader pile_loader
              tokenizer use_text_to_image_mapping mapping_matrix_path media
              k bl bp IndexError evs Hg Hn Hpath Hmedia Hlaion Hpile Hbl Hbp
              Hstep)
    as (wk & Hrun & Hf & Hb & _).
  eexists. split; [exact Hrun |]. simpl. rewrite !count_calls_app.
  split_and!; try done; lia.
Qed.

Lemma train_one_epoch_empty_laion_batch_witness :
  exists w : world,
    train_one_epoch example_args 1 example_laion_loader_empty
      example_pile_loader example_tokenizer false None
    = (Raise IndexError, w) /\
    length (laion_iter w) = 1%nat /\ length (pile_iter w) = 1%nat /\
    count_calls is_forward (trace w) = 2%nat /\
    count_calls is_backward (trace w) = 1%nat.
Proof.
  destruct (train_one_epoch_empty_laion_batch example_args 1
              example_laion_loader_empty example_pile_loader
              example_tokenizer false None 1
              {| laion_input_ids := Tensor2 0 [[]] |}
              {| pile_input_ids := Tensor2 3 [[9; 4; 9]] |})
    as (w & Hrun & Hl & Hp & Hf & Hb).
  - discriminate.
  - reflexivity.
  - intros H; discriminate H.
  - discriminate.
  - repeat constructor.
  - repeat constructor.
  - reflexivity.
  - reflexivity.
  - reflexivity.
  - exists w. rewrite Hl, Hp. by split_and!.
Defined.

Lemma train_one_epoch_empty_pile_batch_witness :
  exists w : world,
    train_one_epoch example_args 1 example_laion_loader
      example_pile_loader_empty example_tokenizer false None
    = (Raise IndexError, w) /\
    count_calls is_forward (trace w) = 3%nat /\
    count_calls is_backward (trace w) = 1%nat.
Proof.
  destruct (train_one_epoch_empty_pile_batch example_args 1
              example_laion_loader example_pile_loader_empty
              example_tokenizer false None 1
              {| laion_input_ids := Tensor2 3 [[9; 4; 0]] |}
              {| pile_input_ids := Tensor2 0 [[]] |})
    as (w & Hrun & _ & _ & Hf & Hb).
  - discriminate.
  - reflexivity.
  - intros H; discriminate H.
  - discriminate.
  - repeat constructor.
  - repeat constructor.
  - reflexivity.
  - reflexivity.
  - unfold laion_batch_ok. simpl. lia.
  - reflexivity.
  - exists w. by split_and!.
Defined.

(** ** Calls that go together, whatever the outcome *)


(** ** What the trace of any run holds *)

(** A property of calls that holds of the calls of every iteration holds of
    the whole trace of the driver (the setup calls are given). *)
Lemma train_one_epoch_Forall (Q : event -> Prop) (args : Args) (epoch : Z)
    (laion_loader : Loader laion_batch) (pile_loader : Loader pile_batch)
    (tokenizer : Tokenizer) (use_mapping : bool) (path : option string) :
  Q ModelTrain ->
  (forall q, Q (LoadMappingMatrix q)) ->
  (forall media k bl bp,
      get_media_token_id tokenizer = Ok media ->
      batches laion_loader !! k = Some bl ->
      batches pile_loader !! k = Some bp ->
      Forall Q (snd (train_step args epoch (num_batches laion_loader)
                       tokenizer media use_mapping (Z.of_nat k) bl bp))) ->
  Forall Q (trace (snd (train_one_epoch args epoch laion_loader pile_loader
                          tokenizer use_mapping path))).
Proof.
  intros Ht Hl Hstep. unfold train_one_epoch.
  destruct (negb (num_batches laion_loader =? num_batches pile_loader));
    [by constructor |].
  destruct (negb (if use_mapping then truthy path else true));
    [by constructor |].
  assert (Hsetup : Forall Q (setup_trace use_mapping path)).
  { unfold setup_trace. destruct use_mapping; repeat constructor; done. }
  destruct (get_media_token_id tokenizer) as [media | e] eqn:Hmedia.
  2:{ cbn [snd trace]. destruct use_mapping; repeat constructor; done. }
  fold (setup_trace use_mapping path).
  destruct (train_loop args epoch (num_batches laion_loader) tokenizer media
              use_mapping 0 (batches laion_loader) (batches pile_loader)
              (setup_trace use_mapping path)) as [r w] eqn:Hloop.
  cbn [snd].
  eapply (train_loop_Forall args epoch _ tokenizer media use_mapping Q
            _ _ 0 _ r w Hsetup); [| exact Hloop].
  intros k bl bp Hbl Hbp. rewrite Z.add_0_l. by apply Hstep.
Qed.

(** X8: every metric emission in the trace of a run comes from a step at
    which a flush was made: the rank is 0 and reporting is on, the logged
    global step is [s + epoch * num_batches] for a step [s] that was run
    and passed the flush test, and the entry is either the source-A loss
    with [commit=False] or the source-B loss with [commit=True]. *)
Theorem train_one_epoch_logged_steps (args : Args) (epoch : Z)
    (laion_loader : Loader laion_batch) (pile_loader : Loader pile_batch)
    (tokenizer : Tokenizer) (use_text_to_image_mapping : bool)
    (mapping_matrix_path : option string)
    (key : string) (global_step : Z) (commit : bool) :
  WandbLog key global_step commit
  ∈ trace (snd (train_one_epoch args epoch laion_loader pile_loader
                  tokenizer use_text_to_image_mapping mapping_matrix_path)) ->
  rank args = 0 /\ report_to_wandb args = true /\
  (exists s : nat,
      (s < min (length (batches laion_loader))
               (length (batches pile_loader)))%nat /\
      global_step = Z.of_nat s + epoch * num_batches laion_loader /\
      flush_now (gradient_accumulation_steps args) (Z.of_nat s)
        (num_batches laion_loader) = true) /\
  ((key = "loss_laion"%string /\ commit = false) \/
   (key = "loss_pile"%string /\ commit = true)).
Proof.
  set (Q := fun e : event =>
    match e with
    | WandbLog key gs commit =>
        rank args = 0 /\ report_to_wandb args = true /\
        (exists s : nat,
            (s < min (length (batches laion_loader))
                     (length (batches pile_loader)))%nat /\
            gs = Z.of_nat s + epoch * num_batches laion_loader /\
            flush_now (gradient_accumulation_steps args) (Z.of_nat s)
              (num_batches laion_loader) = true) /\
        ((key = "loss_laion"%string /\ commit = false) \/
         (key = "loss_pile"%string /\ commit = true))
    | _ => True
    end).
  intros Hin.
  assert (HQ : Forall Q (trace (snd (train_one_epoch args epoch laion_loader
                  pile_loader tokenizer use_text_to_image_mapping
                  mapping_matrix_path)))).
  { apply train_one_epoch_Forall; [done | done |].
    intros media k bl bp _ Hbl Hbp.
    assert (Hk : (k < min (length (batches laion_loader))
                          (length (batches pile_loader)))%nat).
    { apply lookup_lt_Some in Hbl. apply lookup_lt_Some in Hbp. lia. }
    unfold train_step.
    destruct (laion_labels _ _ _) as [la |]; [| by constructor].
    destruct (pile_labels _ _ _) as [lb |];
      [| destruct use_text_to_image_mapping; repeat constructor; done].
    destruct (gradient_accumulation_steps args =? 0);
      [destruct use_text_to_image_mapping; repeat constructor; done |].
    destruct (flush_now _ _ _) eqn:Hflush;
      [| destruct use_text_to_image_mapping; repeat constructor; done].
    destruct (Z.eqb_spec (rank args) 0) as [Hrank | _];
      [| destruct use_text_to_image_mapping; repeat constructor; done].
    destruct (report_to_wandb args) eqn:Hreport;
      [| destruct use_text_to_image_mapping; repeat constructor; done].
    cbn [snd andb].
    destruct use_text_to_image_mapping; cbn [app];
      repeat (apply Forall_cons; split); try apply Forall_nil; try exact I;
      (split_and!; [done | done | by exists k | auto]). }
  rewrite Forall_forall in HQ. exact (HQ _ Hin).
Qed.

Lemma train_one_epoch_logged_steps_witness :
  rank example_args = 0 /\ report_to_wandb example_args = true /\
  (exists s : nat,
      (s < min (length (batches example_laion_loader))
               (length (batches example_pile_loader)))%nat /\
      5 = Z.of_nat s + 1 * num_batches example_laion_loader /\
      flush_now (gradient_accumulation_steps example_args) (Z.of_nat s)
        (num_batches example_laion_loader) = true) /\
  (("loss_pile"%string = "loss_laion"%string /\ true = false) \/
   ("loss_pile"%string = "loss_pile"%string /\ true = true)).
Proof.
  apply (train_one_epoch_logged_steps example_args 1 example_laion_loader
           example_pile_loader example_tokenizer false None).
  apply list_elem_of_In. vm_compute. tauto.
Defined.



(** X10: when the tokenizer returns no id for the media placeholder, the
    driver raises [IndexError] (from [["input_ids"][-1]]) after the
    assertions and after the mapping weights are loaded, but before the
    model is put in training mode and before any batch is taken from a
    loader. *)
Theorem train_one_epoch_no_media_token (args : Args) (epoch : Z)
    (laion_loader : Loader laion_batch) (pile_loader : Loader pile_batch)
    (tokenizer : Tokenizer) (use_text_to_image_mapping : bool)
    (mapping_matrix_path : option string) :
  num_batches laion_loader = num_batches pile_loader ->
  (use_text_to_image_mapping = true -> truthy mapping_matrix_path = true) ->
  image_input_ids tokenizer = [] ->
  train_one_epoch args epoch laion_loader pile_loader tokenizer
    use_text_to_image_mapping mapping_matrix_path
  = (Raise IndexError,
     {| laion_iter := batches laion_loader;
        pile_iter := batches pile_loader;
        trace := if use_text_to_image_mapping
                 then [LoadMappingMatrix
                         (default EmptyString mapping_matrix_path)]
                 else [] |}).
Proof.
  intros Hn Hpath Htok. unfold train_one_epoch.
  rewrite (proj2 (Z.eqb_eq _ _) Hn). cbn [negb].
  assert (Hassert : (if use_text_to_image_mapping
                     then truthy mapping_matrix_path else true) = true).
  { destruct use_text_to_image_mapping; [by apply Hpath | done]. }
  rewrite Hassert. cbn [negb]. unfold get_media_token_id.
  by rewrite Htok.
Qed.

Lemma train_one_epoch_no_media_token_witness :
  train_one_epoch example_args 1 example_laion_loader example_pile_loader
    {| pad_token_id := 0; image_input_ids := [] |}
    true (Some "w.pt"%string)
  = (Raise IndexError,
     {| laion_iter := batches example_laion_loader;
        pile_iter := batches example_pile_loader;
        trace := [LoadMappingMatrix "w.pt"] |}).
Proof.
  apply (train_one_epoch_no_media_token example_args 1 example_laion_loader
           example_pile_loader {| pad_token_id := 0; image_input_ids := [] |}
           true (Some "w.pt"%string)).
  - reflexivity.
  - intros _. reflexivity.
  - reflexivity.
Defined.

(** * Further properties of the labels *)

(** X11: on the same input ids the source-B labels are the source-A labels
    with more positions ignored: each source-B label is the ignore
    sentinel or the source-A label of its position. Both label tensors
    have the shape of the input. *)
Theorem pile_labels_refine_laion_labels (pad media : Z)
    (input_ids : tensor2) :
  rectangular input_ids -> (0 < shape1 input_ids)%nat ->
  exists la lb : tensor2,
    laion_labels pad media input_ids = Ok la /\
    pile_labels pad media input_ids = Ok lb /\
    shape0 la = shape0 input_ids /\ shape1 la = shape1 input_ids /\
    shape0 lb = shape0 input_ids /\ shape1 lb = shape1 input_ids /\
    rectangular la /\ rectangular lb /\
    forall i j, (i < shape0 input_ids)%nat -> (j < shape1 input_ids)%nat ->
      tensor_at lb i j = Some IGNORE_INDEX \/
      tensor_at lb i j = tensor_at la i j.
Proof.
  intros Hrect Hwidth.
  destruct (laion_labels_at pad media input_ids Hwidth)
    as (la & Hla & Ha0 & Ha1 & Hat).
  destruct (pile_labels_rows pad media input_ids Hrect Hwidth)
    as (lb & Hlb & Hb1 & Hb0 & Hrows).
  exists la, lb. split_and!; try done.
  - rewrite (laion_labels_rows pad media input_ids Hwidth) in Hla.
    injection Hla as <-. unfold rectangular. simpl.
    apply Forall_forall. intros r Hr.
    apply list_elem_of_fmap in Hr as (row & -> & Hrow).
    rewrite fill_where_eq_length, length_insert, fill_where_eq_length.
    unfold rectangular in Hrect. rewrite Forall_forall in Hrect.
    by apply Hrect.
  - unfold rectangular. apply Forall_forall. intros r Hr.
    apply list_elem_of_lookup_1 in Hr as [i Hi].
    destruct (lookup_lt_is_Some_2 (rows input_ids) i) as [row Hrow].
    { apply lookup_lt_Some in Hi. unfold shape0 in Hb0. lia. }
    destruct (Hrows i row Hrow) as (scanned & stop & Hscan & Hlrow).
    rewrite Hlrow in Hi. injection Hi as <-.
    destruct (scan_row_run (shape1 input_ids) media
                (<[0%nat := IGNORE_INDEX]> (fill_where_eq pad row)))
      as (row' & stop' & Hrun & _ & Hlen' & _).
    { rewrite length_insert, fill_where_eq_length.
      by apply (rectangular_row _ _ _ Hrect Hrow). }
    rewrite Hrun in Hscan. injection Hscan as -> ->.
    by rewrite fill_where_eq_length, Hb1.
  - intros i j Hi Hj.
    destruct (lookup_lt_is_Some_2 (rows input_ids) i Hi) as [row Hrow].
    pose proof (rectangular_row _ _ _ Hrect Hrow) as Hlen.
    destruct (lookup_lt_is_Some_2 row j) as [x Hx]; [lia |].
    destruct (Hrows i row Hrow) as (scanned & stop & Hscan & Hlrow).
    destruct (pile_row_final pad media _ row scanned stop Hlen Hscan)
      as (_ & _ & _ & Hfinal).
    rewrite (tensor_at_row _ _ _ _ Hlrow), (Hfinal j x Hx).
    rewrite (Hat i j x) by (by rewrite (tensor_at_row _ _ _ _ Hrow)).
    case_decide; [by left |]. right. cbn zeta. f_equal.
    destruct (Nat.eqb_spec j 0), (Z.eqb_spec x pad); cbn [orb];
      by destruct (IGNORE_INDEX =? media).
Qed.

Lemma pile_labels_refine_laion_labels_witness :
  exists la lb : tensor2,
    laion_labels 0 9 (Tensor2 4 [[5; 6; 9; 7]]) = Ok la /\
    pile_labels 0 9 (Tensor2 4 [[5; 6; 9; 7]]) = Ok lb /\
    (tensor_at lb 0 1 = Some IGNORE_INDEX \/
     tensor_at lb 0 1 = tensor_at la 0 1) /\
    (tensor_at lb 0 3 = Some IGNORE_INDEX \/
     tensor_at lb 0 3 = tensor_at la 0 3).
Proof.
  destruct (pile_labels_refine_laion_labels 0 9 (Tensor2 4 [[5; 6; 9; 7]]))
    as (la & lb & Hla & Hlb & _ & _ & _ & _ & _ & _ & Hat).
  - repeat constructor.
  - simpl. lia.
  - exists la, lb. split; [exact Hla |]. split; [exact Hlb |].
    split; apply Hat; unfold shape0; simpl; lia.
Defined.

(** X12: which tokens of a source-B sequence keep their id as label (and
    so count in the loss): exactly those that are neither the padding
    token nor the media placeholder and come strictly after a media
    placeholder that survives lines 109-110 (one that is not at position 0,
    with a media id other than the padding id). Every other label is the
    ignore sentinel. *)
Theorem pile_labels_kept_tokens (pad media : Z) (input_ids : tensor2) :
  rectangular input_ids -> (0 < shape1 input_ids)%nat ->
  media <> IGNORE_INDEX ->
  exists labels : tensor2,
    pile_labels pad media input_ids = Ok labels /\
    forall i row j x,
      rows input_ids !! i = Some row -> row !! j = Some x ->
      ((exists q, (q < j)%nat /\ surviving_media pad media row q) ->
       x <> pad -> x <> media -> tensor_at labels i j = Some x) /\
      (tensor_at labels i j <> Some IGNORE_INDEX ->
       tensor_at labels i j = Some x /\ x <> pad /\ x <> media /\
       exists q, (q < j)%nat /\ surviving_media pad media row q).
Proof.
  intros Hrect Hwidth Hmedia.
  destruct (pile_labels_rows pad media input_ids Hrect Hwidth)
    as (labels & Hrun & _ & _ & Hrows).
  exists labels. split; [done |].
  intros i row j x Hrow Hx.
  destruct (Hrows i row Hrow) as (scanned & stop & Hscan & Hlrow).
  pose proof (rectangular_row _ _ _ Hrect Hrow) as Hlen.
  destruct (pile_row_final pad media _ row scanned stop Hlen Hscan)
    as (Hstop & Hbefore & Hat & Hfinal).
  rewrite (tensor_at_row _ _ _ _ Hlrow), (Hfinal j x Hx). cbn zeta.
  split.
  - intros (q & Hq & Hsurv) Hpad Hnmedia.
    assert (Hsq : (stop <= q)%nat).
    { destruct (decide (q < stop)%nat) as [Hlt |]; [| lia].
      exfalso. by apply (Hbefore q Hlt), premask_media_iff. }
    rewrite decide_False by lia.
    destruct (Nat.eqb_spec j 0) as [-> | _]; [lia |].
    destruct (Z.eqb_spec x pad) as [| _]; [done |]. cbn [orb].
    by destruct (Z.eqb_spec x media).
  - case_decide as Hj; [done |].
    destruct (Nat.eqb_spec j 0) as [| Hj0]; cbn [orb].
    { by destruct (IGNORE_INDEX =? media). }
    destruct (Z.eqb_spec x pad) as [| Hpad].
    { by destruct (IGNORE_INDEX =? media). }
    destruct (Z.eqb_spec x media) as [| Hnmedia]; [done |].
    intros _. split_and!; try done.
    assert (Hlt : (stop < shape1 input_ids)%nat).
    { apply lookup_lt_Some in Hx. lia. }
    pose proof (proj1 (premask_media_iff pad media row stop Hmedia)
                  (Hat Hlt)) as Hsurv.
    exists stop. split; [| done].
    destruct (decide (stop = j)) as [-> | ]; [| lia].
    destruct Hsurv as (_ & Hm & _). congruence.
Qed.

Lemma pile_labels_kept_tokens_witness :
  exists labels : tensor2,
    pile_labels 0 9 (Tensor2 5 [[5; 6; 9; 7; 0]]) = Ok labels /\
    tensor_at labels 0 3 = Some 7.
Proof.
  destruct (pile_labels_kept_tokens 0 9 (Tensor2 5 [[5; 6; 9; 7; 0]]))
    as (labels & Hrun & Hat).
  - repeat constructor.
  - simpl. lia.
  - discriminate.
  - exists labels. split; [exact Hrun |].
    apply (proj1 (Hat 0%nat [5; 6; 9; 7; 0] 3%nat 7 eq_refl eq_refl)).
    + exists 2%nat. split; [lia |].
      split; [discriminate |]. split; [reflexivity | discriminate].
    + discriminate.
    + discriminate.
Defined.

(** * Further properties of the checkpoint filter and of the precision
    helpers *)

Section CheckpointMore.
Context {Tensor : Type}.
Implicit Types (params : list (string * Param Tensor)).
Implicit Types (sd : gmap string Tensor).

Lemma delete_frozen_subseteq params : forall sd sd',
  delete_frozen params sd = Ok sd' -> sd' ⊆ sd.
Proof.
  induction params as [| [name p] params IH]; intros sd sd' Hrun.
  - by injection Hrun as <-.
  - simpl in Hrun. destruct (requires_grad p); simpl in Hrun.
    + by apply IH.
    + destruct (sd !! name); [| discriminate Hrun].
      etrans; [by apply IH | apply delete_subseteq].
Qed.

Lemma delete_frozen_missing params : forall sd name p,
  NoDup params.*1 ->
  (name, p) ∈ params -> requires_grad p = false -> sd !! name = None ->
  exists k q,
    delete_frozen params sd = Raise (KeyError k) /\
    (k, q) ∈ params /\ requires_grad q = false /\ sd !! k = None.
Proof.
  induction params as [| [n0 p0] params IH];
    intros sd name p Hnodup Hin Hp Hname.
  - by apply elem_of_nil in Hin.
  - simpl in Hnodup. apply NoDup_cons in Hnodup as [Hfresh Hnodup].
    assert (Hnames : forall n q, (n, q) ∈ params -> n ∈ params.*1).
    { intros n q H. apply list_elem_of_fmap. by exists (n, q). }
    simpl. destruct (requires_grad p0) eqn:Hp0; simpl.
    + apply elem_of_cons in Hin as [[= -> ->] | Hin]; [congruence |].
      destruct (IH sd name p Hnodup Hin Hp Hname)
        as (k & q & Hrun & Hk & Hq & Hsd).
      exists k, q. split_and!; try done. by right.
    + destruct (sd !! n0) as [t |] eqn:Hn0.
      * apply elem_of_cons in Hin as [[= -> ->] | Hin]; [congruence |].
        assert (Hne : n0 <> name) by (intros ->; congruence).
        destruct (IH (delete n0 sd) name p Hnodup Hin Hp)
          as (k & q & Hrun & Hk & Hq & Hsd).
        { by rewrite lookup_delete_ne. }
        exists k, q. split_and!; try done; [by right |].
        rewrite lookup_delete_ne in Hsd; [done |].
        intros ->. apply Hfresh. by eapply Hnames.
      * exists n0, p0. split_and!; try done. by left.
Qed.

Lemma delete_frozen_all_trainable params : forall sd,
  (forall name p, (name, p) ∈ params -> requires_grad p = true) ->
  delete_frozen params sd = Ok sd.
Proof.
  induction params as [| [name p] params IH]; intros sd Hall; [done |].
  simpl. rewrite (Hall name p) by left. simpl.
  apply IH. intros n q Hin. apply (Hall n q). by right.
Qed.

(** X13: [get_checkpoint] never adds or changes an entry: whenever it
    returns, its result is a sub-mapping of the model's state dictionary,
    for any model. *)
Theorem get_checkpoint_subseteq (model : Model Tensor)
    (checkpoint : gmap string Tensor) :
  fst (get_checkpoint model) = Ok checkpoint ->
  checkpoint ⊆ state_dict model /\
  forall k t, checkpoint !! k = Some t -> state_dict model !! k = Some t.
Proof.
  intros Hrun. simpl in Hrun. apply delete_frozen_subseteq in Hrun.
  split; [exact Hrun |]. intros k t Hk.
  by eapply lookup_weaken.
Qed.

(** X14: [get_checkpoint] raises [KeyError] when a frozen parameter has no
    entry in the state dictionary (the names of the parameters being
    distinct): the key of the error is the name of such a parameter. *)
Theorem get_checkpoint_missing_entry (model : Model Tensor)
    (name : string) (p : Param Tensor) :
  NoDup (named_parameters model).*1 ->
  (name, p) ∈ named_parameters model ->
  requires_grad p = false ->
  state_dict model !! name = None ->
  exists k q,
    get_checkpoint model = (Raise (KeyError k), model) /\
    (k, q) ∈ named_parameters model /\ requires_grad q = false /\
    state_dict model !! k = None.
Proof.
  intros Hnodup Hin Hp Hname. unfold get_checkpoint.
  destruct (delete_frozen_missing (named_parameters model)
              (state_dict model) name p Hnodup Hin Hp Hname)
    as (k & q & Hrun & Hk & Hq & Hsd).
  exists k, q. by rewrite Hrun.
Qed.

(** X15: on a model none of whose parameters is frozen, [get_checkpoint]
    returns the whole state dictionary, whether or not the parameter names
    are keys of it. *)
Theorem get_checkpoint_all_trainable (model : Model Tensor) :
  (forall name p, (name, p) ∈ named_parameters model ->
                  requires_grad p = true) ->
  get_checkpoint model = (Ok (state_dict model), model).
Proof.
  intros Hall. unfold get_checkpoint.
  by rewrite (delete_frozen_all_trainable _ _ Hall).
Qed.
End CheckpointMore.

Lemma get_checkpoint_subseteq_witness :
  <["a" := 1]> (<["buf" := 3]> (∅ : gmap string Z))
  ⊆ state_dict example_model.
Proof.
  assert (Hrun : fst (get_checkpoint example_model)
                 = Ok (<["a" := 1]> (<["buf" := 3]> (∅ : gmap string Z))))
    by (vm_compute; reflexivity).
  exact (proj1 (get_checkpoint_subseteq example_model _ Hrun)).
Defined.

Lemma get_checkpoint_missing_entry_witness :
  exists (k : string) (q : Param Z),
    get_checkpoint
      {| state_entries := <["a" := 1]> (∅ : gmap string Z);
         named_parameters :=
           [("a"%string, {| requires_grad := true; data := 1 |});
            ("w"%string, {| requires_grad := false; data := 2 |})] |}
    = (Raise (KeyError k),
       {| state_entries := <["a" := 1]> (∅ : gmap string Z);
          named_parameters :=
            [("a"%string, {| requires_grad := true; data := 1 |});
             ("w"%string, {| requires_grad := false; data := 2 |})] |}) /\
    requires_grad q = false.
Proof.
  destruct (get_checkpoint_missing_entry
              {| state_entries := <["a" := 1]> (∅ : gmap string Z);
                 named_parameters :=
                   [("a"%string, {| requires_grad := true; data := 1 |});
                    ("w"%string, {| requires_grad := false; data := 2 |})] |}
              "w"%string {| requires_grad := false; data := 2 |})
    as (k & q & Hrun & _ & Hq & _).
  - apply (bool_decide_unpack _). reflexivity.
  - right. left.
  - reflexivity.
  - reflexivity.
  - exists k, q. split; [exact Hrun | exact Hq].
Defined.

Lemma get_checkpoint_all_trainable_witness :
  get_checkpoint
    {| state_entries := <["a" := 1]> (<["buf" := 3]> (∅ : gmap string Z));
       named_parameters :=
         [("a"%string, {| requires_grad := true; data := 1 |})] |}
  = (Ok (<["a" := 1]> (<["buf" := 3]> ∅)),
     {| state_entries := <["a" := 1]> (<["buf" := 3]> (∅ : gmap string Z));
        named_parameters :=
          [("a"%string, {| requires_grad := true; data := 1 |})] |}).
Proof.
  refine (get_checkpoint_all_trainable
            {| state_entries :=
                 <["a" := 1]> (<["buf" := 3]> (∅ : gmap string Z));
               named_parameters :=
                 [("a"%string, {| requires_grad := true; data := 1 |})] |}
            _).
  intros name p Hin. simpl in Hin.
  apply elem_of_cons in Hin as [[= -> ->] | Hin]; [reflexivity |].
  by apply elem_of_nil in Hin.
Defined.

(** X16: the two precision helpers never both take effect: a precision for
    which [get_cast_dtype] gives a dtype gets the do-nothing context from
    [get_autocast], and a precision for which [get_autocast] gives an
    autocast context gets no cast dtype. *)
Theorem cast_and_autocast_exclusive (precision : string) :
  (get_cast_dtype precision <> None -> get_autocast precision = suppress) /\
  (get_autocast precision <> suppress -> get_cast_dtype precision = None).
Proof.
  assert (H : get_cast_dtype precision = None \/
              get_autocast precision = suppress).
  { unfold get_cast_dtype, get_autocast.
    destruct (String.eqb_spec precision "bf16") as [-> | _]; [by right |].
    destruct (String.eqb_spec precision "fp16") as [-> | _]; [by right |].
    by left. }
  split; intros Hne; destruct H as [H | H]; congruence.
Qed.

Lemma cast_and_autocast_exclusive_witness :
  get_autocast "bf16" = suppress /\ get_cast_dtype "amp_bf16" = None.
Proof.
  split.
  - apply (proj1 (cast_and_autocast_exclusive "bf16")). discriminate.
  - apply (proj2 (cast_and_autocast_exclusive "amp_bf16")). discriminate.
Defined.
